(** * Disaster dashboard: the data pipeline behind the charts

    A shallow embedding of the data transforms of the dashboard:
    - [src/hooks/useDisasterData.js]  (row normalisation),
    - [Dashboard]                     (filter state, dropdown values, reset),
    - [charts/TypeSeverityChart.jsx]  (aggregation by disaster type),
    - [charts/ResponseScatterChart.jsx] (systematic sampling),
    - [charts/CountryRankChart.jsx]   (aggregation by country, ranking),
    - [charts/TimeTrendChart]         (year x type cross-tab, stacking).

    Conventions of the embedding.
    - A JavaScript array is a [list]; a [Map] (d3's InternMap) is an
      association list in insertion order; an object used as a dictionary
      is the [gmap string _] of its own properties, written and read as
      JavaScript does ([JS.Object_set], [JS.Object_get]); a [Set] given to
      a component is a [gset].
    - A finite Number is an exact rational ([Qc]); an integer-valued Number
      (a year, a count, an index) is a [Z] or a [nat]. A Number that may be
      [NaN], or a value that may be [undefined], is an [option] with [None]
      for [NaN]/[undefined]. Rounding of doubles and the infinities are not
      represented.
    - What the host gives ([Date] parsing, the local calendar, the
      string-to-number conversion) is a parameter: the class [Engine]. *)

From Stdlib Require Import ZArith QArith Qcanon Lia Strings.Ascii.
From stdpp Require Import base numbers option list strings pretty gmap sorting.

Set Default Proof Using "Type".

(** ** The JavaScript run time used by the sources *)

Module JS.

(** A Number that may be [NaN] (equally: [undefined] where a number is
    expected, since every arithmetic use coerces it to [NaN]). *)
Abbreviation num := (option Qc).

(** Truthiness of a value that is a string or [undefined]: only the
    empty string and [undefined] are falsy. *)
Definition truthy (v : option string) : bool :=
  match v with
  | Some s => negb (String.eqb s "")
  | None => false
  end.

(** Truthiness of a Number: [NaN] and zero are falsy. *)
Definition truthy_num (x : num) : bool :=
  match x with
  | Some q => negb (bool_decide (q = 0%Qc))
  | None => false
  end.

(** [x || 0] on a Number [x]. *)
Definition or_zero (x : num) : Qc :=
  if truthy_num x then default 0%Qc x else 0%Qc.

(** [String(n)] for an integer-valued Number or [NaN]. *)
Definition to_string (n : option Z) : string :=
  match n with
  | Some z => pretty z
  | None => "NaN"
  end.

(** [s.padStart(n, "0")]. *)
Definition padStart0 (n : nat) (s : string) : string :=
  String.app (String.string_of_list_ascii (replicate (n - String.length s) "0"%char)) s.

(** Lifting of binary arithmetic to Numbers that may be [NaN]. *)
Definition lift2 (f : Qc → Qc → Qc) (x y : num) : num :=
  match x, y with
  | Some a, Some b => Some (f a b)
  | _, _ => None
  end.

Definition sub : num → num → num := lift2 Qcminus.

(** [x / y] with a non-zero constant divisor [y]. *)
Definition div_const (x : num) (y : Qc) : num := (λ a, (a / y)%Qc) <$> x.

(** [new Set(xs)] read back as an array: the distinct values in the order
    of their first occurrence. *)
Definition Set_add `{EqDecision A} (acc : list A) (x : A) : list A :=
  if decide (x ∈ acc) then acc else acc ++ [x].

Definition Set_from `{EqDecision A} (xs : list A) : list A :=
  foldl Set_add [] xs.

(** [Array.prototype.sort]: a stable sort. [before x y] says that [x]
    need not move behind [y] (the comparator is not positive on them).
    For a consistent comparator the result does not depend on the
    algorithm; insertion is the simplest stable one. *)
Fixpoint insert_sorted {A} (before : A → A → bool) (x : A) (l : list A) : list A :=
  match l with
  | [] => [x]
  | y :: l' => if before x y then x :: l else y :: insert_sorted before x l'
  end.

Definition sort_with {A} (before : A → A → bool) (l : list A) : list A :=
  foldr (insert_sorted before) [] l.

(** [arr.sort(compareFn)] for a comparator that returns a Number: [x]
    moves behind [y] only when [compareFn(x, y) > 0]; a [NaN] result
    counts as [+0]. *)
Definition positive (c : num) : bool :=
  match c with
  | Some q => bool_decide (0 < q)%Qc
  | None => false
  end.

Definition sort {A} (compareFn : A → A → num) : list A → list A :=
  sort_with (λ x y, negb (positive (compareFn x y))).

(** [arr.sort()] without comparator: elements are compared by their
    string conversion, by code units. *)
Definition sort_default {A} (toString : A → string) : list A → list A :=
  sort_with (λ x y, negb (String.ltb (toString y) (toString x))).

(** [arr.filter((_, index) => p(index))]. *)
Fixpoint filter_index {A} (p : nat → bool) (index : nat) (l : list A) : list A :=
  match l with
  | [] => []
  | x :: l' =>
      if p index then x :: filter_index p (S index) l'
      else filter_index p (S index) l'
  end.

(** [arr.slice(0, n)]. *)
Definition slice0 {A} (n : nat) (l : list A) : list A := take n l.

(** [x / y]. The quotient by zero is [NaN] or an infinity, no finite
    Number: it is [None] as well. *)
Definition div (x y : num) : num :=
  match x, y with
  | Some a, Some b => if decide (b = 0%Qc) then None else Some (a / b)%Qc
  | _, _ => None
  end.

(** [Math.max(x, y)]: [NaN] as soon as an argument is. *)
Definition Math_max (x y : num) : num :=
  match x, y with
  | Some a, Some b => Some (if decide (a ≤ b)%Qc then b else a)
  | _, _ => None
  end.

(** An ordinary object ([{ ... }]) whose own properties hold integer-valued
    Numbers, as the map of its own properties. Its prototype is
    [Object.prototype], whose property [__proto__] is an accessor:
    [obj["__proto__"] = n] with a Number [n] changes nothing and creates no
    own property, and [obj["__proto__"]] is the prototype itself. The other
    properties of [Object.prototype] are methods, which an assignment
    shadows by an own property. *)
Abbreviation Object := (gmap string Z).

(** What reading a property gives: the Number of an own property, a
    value found on the prototype (the prototype itself or a method), or
    [undefined]. *)
Inductive Value :=
  | Number (n : Z)
  | Inherited
  | Undefined.

Definition Object_prototype : list string :=
  [ "__proto__"; "constructor"; "hasOwnProperty"; "isPrototypeOf";
    "propertyIsEnumerable"; "toLocaleString"; "toString"; "valueOf";
    "__defineGetter__"; "__defineSetter__"; "__lookupGetter__";
    "__lookupSetter__" ]%string.

(** [obj[key] = n]. *)
Definition Object_set (obj : Object) (key : string) (n : Z) : Object :=
  if decide (key = "__proto__"%string) then obj else <[key := n]> obj.

(** [obj[key]]. *)
Definition Object_get (obj : Object) (key : string) : Value :=
  if decide (key = "__proto__"%string) then Inherited
  else match obj !! key with
       | Some n => Number n
       | None => if decide (key ∈ Object_prototype) then Inherited else Undefined
       end.

(** [+v]: an object, a function and [undefined] convert to [NaN]. *)
Definition ToNumber (v : Value) : option Z :=
  match v with
  | Number n => Some n
  | Inherited | Undefined => None
  end.

(** [v === n] for a Number [n]. *)
Definition strict_equals (v : Value) (n : Z) : bool :=
  match v with
  | Number m => (m =? n)%Z
  | Inherited | Undefined => false
  end.

End JS.

(** ** Event records *)

(** A raw row as the CSV reader delivers it: a string-keyed map of strings. *)
Abbreviation RawRow := (gmap string string).

(** What the host provides to the normaliser. Time values are milliseconds
    since the epoch; [None] is the Invalid Date / [NaN]. *)
Class Engine := {
  (** the time value of [new Date(s)] for a string [s] *)
  Date_parse : string → option Z;
  (** [getFullYear()] and [getMonth()] of a valid date (local calendar) *)
  getFullYear : Z → Z;
  getMonth : Z → Z;
  (** [+s] for a string [s] *)
  StringToNumber : string → option Qc
}.

(** A validated event: the shape of the elements of [data] that every
    component downstream of the hook receives. *)
Record Event := {
  date : Z;
  country : string;
  disaster_type : string;
  severity_index : Qc;
  casualties : Qc;
  economic_loss_usd : Qc;
  response_time_hours : Qc;
  aid_amount_usd : Qc;
  response_efficiency_score : Qc;
  recovery_days : Qc;
  latitude : Qc;
  longitude : Qc;
  year : Z;
  month : Z;
  yearMonth : string
}.

(** ** [useDisasterData]: parsing and validation of the rows *)

Module useDisasterData.

(** The object built for each row by [rawData.map]: before validation
    the date may be invalid, and the two categorical fields may be
    [undefined] or empty. Its fields carry the prefix [p_]; the plain
    names of the source are those of [Event]. *)
Record Parsed := {
  p_date : option Z;
  p_country : option string;
  p_disaster_type : option string;
  p_severity_index : Qc;
  p_casualties : Qc;
  p_economic_loss_usd : Qc;
  p_response_time_hours : Qc;
  p_aid_amount_usd : Qc;
  p_response_efficiency_score : Qc;
  p_recovery_days : Qc;
  p_latitude : Qc;
  p_longitude : Qc;
  p_year : option Z;
  p_month : option Z;
  p_yearMonth : string
}.

Section with_engine.
Context `{Engine}.

(** [new Date(dateStr)]: an [undefined] argument gives the Invalid Date. *)
Definition new_Date (dateStr : option string) : option Z :=
  dateStr ≫= Date_parse.

(** [+v] for a field that is a string or [undefined]. *)
Definition unary_plus (v : option string) : JS.num :=
  v ≫= StringToNumber.

(** [+d.field || 0]. *)
Definition number_field (d : RawRow) (field : string) : Qc :=
  JS.or_zero (unary_plus (d !! field)).

Definition parseRow (d : RawRow) : Parsed :=
  let dateStr := d !! "date" in
  let parsedDate := new_Date dateStr in
  {| p_date := parsedDate;
     p_country := d !! "country";
     p_disaster_type := d !! "disaster_type";
     p_severity_index := number_field d "severity_index";
     p_casualties := number_field d "casualties";
     p_economic_loss_usd := number_field d "economic_loss_usd";
     p_response_time_hours := number_field d "response_time_hours";
     p_aid_amount_usd := number_field d "aid_amount_usd";
     p_response_efficiency_score := number_field d "response_efficiency_score";
     p_recovery_days := number_field d "recovery_days";
     p_latitude := number_field d "latitude";
     p_longitude := number_field d "longitude";
     p_year := getFullYear <$> parsedDate;
     p_month := (λ t, getMonth t + 1)%Z <$> parsedDate;
     p_yearMonth :=
       String.app (JS.to_string (getFullYear <$> parsedDate))
         (String.app "-"
            (JS.padStart0 2 (JS.to_string ((λ t, getMonth t + 1)%Z <$> parsedDate))))
  |}.

Definition parsedData (rawData : list RawRow) : list Parsed :=
  parseRow <$> rawData.

(** The predicate of [parsedData.filter]:
    [!isNaN(d.date.getTime()) && d.country && d.disaster_type]. *)
Definition isValid (d : Parsed) : bool :=
  bool_decide (is_Some (p_date d)) && JS.truthy (p_country d) && JS.truthy (p_disaster_type d).

Definition validData (rawData : list RawRow) : list Parsed :=
  filter (λ d, isValid d = true) (parsedData rawData).

(** The typed view of a parsed row: defined exactly when the date and
    the calendar fields are numbers and both categorical fields are
    strings. *)
Definition toEvent (d : Parsed) : option Event :=
  t ← p_date d; c ← p_country d; ty ← p_disaster_type d;
  y ← p_year d; m ← p_month d;
  Some {| date := t; country := c; disaster_type := ty;
          severity_index := p_severity_index d;
          casualties := p_casualties d;
          economic_loss_usd := p_economic_loss_usd d;
          response_time_hours := p_response_time_hours d;
          aid_amount_usd := p_aid_amount_usd d;
          response_efficiency_score := p_response_efficiency_score d;
          recovery_days := p_recovery_days d;
          latitude := p_latitude d;
          longitude := p_longitude d;
          year := y; month := m; yearMonth := p_yearMonth d |}.

(** The dataset the hook hands to the dashboard ([setData(validData)]). *)
Definition data (rawData : list RawRow) : list Event :=
  omap toEvent (validData rawData).

End with_engine.
End useDisasterData.


(** ** The d3 functions the components call *)

Module d3.

(** An InternMap keyed by [K]: entries in insertion order, keys distinct. *)
Abbreviation Map K V := (list (K * V)).

(** [map.get(key)]. *)
Fixpoint get {K V} `{EqDecision K} (m : Map K V) (key : K) : option V :=
  match m with
  | [] => None
  | (k, v) :: m' => if decide (k = key) then Some v else get m' key
  end.

(** One step of the grouping loop:
    [group = groups.get(key); if (group) group.push(value);
     else groups.set(key, [value])]. *)
Fixpoint push {K A} `{EqDecision K} (key : K) (value : A) (groups : Map K (list A))
  : Map K (list A) :=
  match groups with
  | [] => [(key, [value])]
  | (k, g) :: rest =>
      if decide (k = key) then (k, g ++ [value]) :: rest
      else (k, g) :: push key value rest
  end.

Definition group {K A} `{EqDecision K} (values : list A) (keyof : A → K)
  : Map K (list A) :=
  foldl (λ groups value, push (keyof value) value groups) [] values.

(** [d3.rollup(values, reduce, key)]. *)
Definition rollup {K A R} `{EqDecision K}
    (values : list A) (reduce : list A → R) (keyof : A → K) : Map K R :=
  prod_map id reduce <$> group values keyof.

(** [d3.rollup(values, reduce, key1, key2)]: each group of the first key
    is regrouped by the second. *)
Definition rollup2 {K1 K2 A R} `{EqDecision K1, EqDecision K2}
    (values : list A) (reduce : list A → R) (key1 : A → K1) (key2 : A → K2)
  : Map K1 (Map K2 R) :=
  rollup values (λ g, rollup g reduce key2) key1.

(** [d3.mean(values, accessor)]: counts and sums the values that are
    numbers, and returns [undefined] when there is none. Every accessor of
    the components reads a field that holds a Number. The sum and the
    quotient are the exact ones: the code rounds each addition and the
    division to a double, so this definition says which values are
    averaged and what is returned when there are none, and gives the
    average up to that rounding only. *)
Definition mean {A} (values : list A) (accessor : A → Qc) : JS.num :=
  let '(count, sum) :=
    foldl (λ '(count, sum) value, (S count, (sum + accessor value)%Qc))
          (0%nat, 0%Qc) values in
  if (count =? 0)%nat then None else Some (sum / Qc_of_Z (Z.of_nat count))%Qc.

(** A point of a stacked series: the band [(y0, y1)]; [None] is [NaN]. *)
Abbreviation Point := (option Z * option Z)%type.

(** The first pass of [stack(data)]: for each key the series
    [[0, +d[key]]] over the rows; what is no Number converts to [NaN]. *)
Definition stack_init (keys : list string) (data : list JS.Object)
  : list (string * list Point) :=
  (λ key, (key, (λ d, (Some 0%Z, JS.ToNumber (JS.Object_get d key))) <$> data)) <$> keys.

(** The inner loop of [stackOffsetNone]:
    [s1[j][1] += s1[j][0] = isNaN(s0[j][1]) ? s0[j][0] : s0[j][1]]. *)
Definition offset_step (s0 s1 : list Point) : list Point :=
  zip_with (λ p0 p1 : Point,
              let y0 := match p0.2 with None => p0.1 | Some _ => p0.2 end in
              (y0, match p1.2, y0 with
                   | Some v, Some b => Some (v + b)%Z
                   | _, _ => None
                   end))
           s0 s1.

Fixpoint offset_from (s0 : list Point) (series : list (string * list Point))
  : list (string * list Point) :=
  match series with
  | [] => []
  | (key, s1) :: rest =>
      let s1' := offset_step s0 s1 in
      (key, s1') :: offset_from s1' rest
  end.

(** [stackOffsetNone] under [stackOrderNone] (the series in key order). *)
Definition stackOffsetNone (series : list (string * list Point))
  : list (string * list Point) :=
  match series with
  | [] => []
  | (key, s1) :: rest => (key, s1) :: offset_from s1 rest
  end.

(** [d3.stack().keys(keys).order(stackOrderNone).offset(stackOffsetNone)]
    applied to [data]. *)
Definition stack (keys : list string) (data : list JS.Object)
  : list (string * list Point) :=
  stackOffsetNone (stack_init keys data).

(** [d3.sum(values, accessor)]: adds the values that are truthy numbers
    (a zero adds nothing either way), from left to right. The sum is the
    exact one: the code rounds each addition to a double, so the result is
    the code's up to that rounding only (and exactly so on integers below
    [2^53]). *)
Definition sum {A} (values : list A) (accessor : A → Qc) : Qc :=
  foldl (λ sum value,
           if JS.truthy_num (Some (accessor value)) then (sum + accessor value)%Qc else sum)
        0%Qc values.

(** [d3.max(values, accessor)]: the greatest of the values that are
    numbers, [undefined] when there is none:
    [if (value != null && (max < value || (max === undefined && value >= value)))
       max = value]. *)
Definition max {A} (values : list A) (accessor : A → JS.num) : JS.num :=
  foldl (λ max value,
           match accessor value, max with
           | Some v, Some m => if decide (m < v)%Qc then Some v else max
           | Some v, None => Some v
           | None, _ => max
           end)
        None values.

End d3.

(** ** [Dashboard]: filter state and derived values *)

Module Dashboard.

(** The component state ([useState]). *)
Record State := {
  yearRange : Z * Z;
  selectedType : string;
  selectedCountry : string;
  rankingMetric : string;
  scatterYAxis : string
}.

Definition initial : State :=
  {| yearRange := (2018, 2024)%Z;
     selectedType := "All";
     selectedCountry := "All";
     rankingMetric := "response_time_hours";
     scatterYAxis := "casualties" |}.

(** [uniqueTypes]: the sentinel is put in front of the distinct types and
    the whole array is then sorted. *)
Definition uniqueTypes (data : list Event) : list string :=
  match data with
  | [] => []
  | _ :: _ => JS.sort_default id ("All" :: JS.Set_from (disaster_type <$> data))
  end.

(** [uniqueCountries]: the distinct countries are sorted, and the sentinel
    is put in front afterwards. *)
Definition uniqueCountries (data : list Event) : list string :=
  match data with
  | [] => []
  | _ :: _ =>
      let countries := JS.sort_default id (JS.Set_from (country <$> data)) in
      "All" :: countries
  end.

(** [Math.min(...years)] and [Math.max(...years)] of a non-empty array,
    given as its head and tail. *)
Definition Math_min (y : Z) (ys : list Z) : Z := foldl Z.min y ys.
Definition Math_max (y : Z) (ys : list Z) : Z := foldl Z.max y ys.

(** [yearExtent]: the guard [!data.length] is the case of the empty list. *)
Definition yearExtent (data : list Event) : Z * Z :=
  match year <$> data with
  | [] => (2018, 2024)%Z
  | y :: ys => (Math_min y ys, Math_max y ys)
  end.

(** The predicate of [data.filter] in [filteredData]. *)
Definition matches (st : State) (d : Event) : bool :=
  let matchesYear := ((yearRange st).1 <=? year d)%Z && (year d <=? (yearRange st).2)%Z in
  let matchesType :=
    String.eqb (selectedType st) "All" || String.eqb (disaster_type d) (selectedType st) in
  let matchesCountry :=
    String.eqb (selectedCountry st) "All" || String.eqb (country d) (selectedCountry st) in
  matchesYear && matchesType && matchesCountry.

Definition filteredData (data : list Event) (st : State) : list Event :=
  filter (λ d, matches st d = true) data.

(** [handleReset]. *)
Definition handleReset (data : list Event) (st : State) : State :=
  {| yearRange := yearExtent data;
     selectedType := "All";
     selectedCountry := "All";
     rankingMetric := "response_time_hours";
     scatterYAxis := "casualties" |}.

(** What the controls can do to the state: the two sliders (a new bound is
    taken only when it keeps the range ordered), the two dropdowns, the two
    chart options and the reset button. *)
Inductive Action :=
  | SetYearMin (newMin : Z)
  | SetYearMax (newMax : Z)
  | SetSelectedType (type : string)
  | SetSelectedCountry (c : string)
  | SetRankingMetric (m : string)
  | SetScatterYAxis (m : string)
  | Reset.

Definition update (data : list Event) (st : State) (a : Action) : State :=
  match a with
  | SetYearMin newMin =>
      if (newMin <=? (yearRange st).2)%Z
      then {| yearRange := (newMin, (yearRange st).2);
              selectedType := selectedType st; selectedCountry := selectedCountry st;
              rankingMetric := rankingMetric st; scatterYAxis := scatterYAxis st |}
      else st
  | SetYearMax newMax =>
      if ((yearRange st).1 <=? newMax)%Z
      then {| yearRange := ((yearRange st).1, newMax);
              selectedType := selectedType st; selectedCountry := selectedCountry st;
              rankingMetric := rankingMetric st; scatterYAxis := scatterYAxis st |}
      else st
  | SetSelectedType type =>
      {| yearRange := yearRange st; selectedType := type;
         selectedCountry := selectedCountry st;
         rankingMetric := rankingMetric st; scatterYAxis := scatterYAxis st |}
  | SetSelectedCountry c =>
      {| yearRange := yearRange st; selectedType := selectedType st;
         selectedCountry := c;
         rankingMetric := rankingMetric st; scatterYAxis := scatterYAxis st |}
  | SetRankingMetric m =>
      {| yearRange := yearRange st; selectedType := selectedType st;
         selectedCountry := selectedCountry st;
         rankingMetric := m; scatterYAxis := scatterYAxis st |}
  | SetScatterYAxis m =>
      {| yearRange := yearRange st; selectedType := selectedType st;
         selectedCountry := selectedCountry st;
         rankingMetric := rankingMetric st; scatterYAxis := m |}
  | Reset => handleReset data st
  end.

(** The states the dashboard can be in over the dataset [data]. *)
Inductive reachable (data : list Event) : State → Prop :=
  | reachable_initial : reachable data initial
  | reachable_update st a : reachable data st → reachable data (update data st a).

End Dashboard.

(** ** [TypeSeverityChart]: aggregation by disaster type

    The drawing effect of each chart returns at once when [data] is empty
    ([if (!data || data.length === 0) return]); the transforms below are
    the code after that guard, as functions of [data]. *)

Module TypeSeverityChart.

(** The value the reducer of [d3.rollup] returns for one group. *)
Record Summary := {
  s_avgCasualties : JS.num;
  s_avgEconomicLoss : JS.num;
  s_count : nat
}.

Definition reducer (v : list Event) : Summary :=
  {| s_avgCasualties := d3.mean v casualties;
     s_avgEconomicLoss := d3.mean v economic_loss_usd;
     s_count := length v |}.

Definition aggregated (data : list Event) : d3.Map string Summary :=
  d3.rollup data reducer disaster_type.

(** One bar group of the chart. *)
Record Bar := {
  type : string;
  avgCasualties : JS.num;
  avgEconomicLoss : JS.num;
  count : nat
}.

Definition toBar (entry : string * Summary) : Bar :=
  {| type := entry.1;
     avgCasualties := s_avgCasualties entry.2;
     avgEconomicLoss := JS.div_const (s_avgEconomicLoss entry.2) (Qc_of_Z 1000000);
     count := s_count entry.2 |}.

Definition chartData (data : list Event) : list Bar :=
  JS.sort (λ a b, JS.sub (avgCasualties b) (avgCasualties a))
          (toBar <$> aggregated data).

(** The upper end of the domain given to [yScale] (before [nice()]). *)
Definition yDomainMax (data : list Event) : JS.num :=
  JS.Math_max (d3.max (chartData data) avgCasualties)
              (d3.max (chartData data) avgEconomicLoss).

End TypeSeverityChart.

(** ** [ResponseScatterChart]: systematic sampling *)

Module ResponseScatterChart.

Definition MAX_POINTS : nat := 2000.

Definition sampledData {A} (data : list A) : list A :=
  if (MAX_POINTS <? length data)%nat then
    let step := (length data / MAX_POINTS)%nat in
    JS.slice0 MAX_POINTS
      (JS.filter_index (λ index, (index mod step =? 0)%nat) 0 data)
  else data.

(** The upper ends of the domains given to [xScale], [yScale] and
    [sizeScale]: maxima over [data], not over the sample. *)
Definition xDomainMax (data : list Event) : JS.num :=
  d3.max data (λ d, Some (response_time_hours d)).

Definition yValue (yAxisMetric : string) (d : Event) : Qc :=
  if String.eqb yAxisMetric "casualties" then casualties d
  else (economic_loss_usd d / Qc_of_Z 1000000)%Qc.

Definition yDomainMax (yAxisMetric : string) (data : list Event) : JS.num :=
  d3.max data (λ d, Some (yValue yAxisMetric d)).


(** The number of points the subtitle announces,
    [data.length > 2000 && ... Math.min(2000, data.length) ...]:
    [None] when the subtitle says nothing. *)
Definition shownCount {A} (data : list A) : option nat :=
  if (2000 <? length data)%nat then Some (Nat.min 2000 (length data)) else None.

End ResponseScatterChart.

(** ** [CountryRankChart]: aggregation by country and ranking *)

Module CountryRankChart.

Record Summary := {
  s_avgResponseTime : JS.num;
  s_avgCasualties : JS.num;
  s_avgEconomicLoss : JS.num;
  s_count : nat
}.

Definition reducer (v : list Event) : Summary :=
  {| s_avgResponseTime := d3.mean v response_time_hours;
     s_avgCasualties := d3.mean v casualties;
     s_avgEconomicLoss := JS.div_const (d3.mean v economic_loss_usd) (Qc_of_Z 1000000);
     s_count := length v |}.

Definition aggregated (data : list Event) : d3.Map string Summary :=
  d3.rollup data reducer country.

(** One bar of the chart. The field [country] of the source is [name]
    here, [country] being the field of [Event]. *)
Record Bar := {
  name : string;
  avgResponseTime : JS.num;
  avgCasualties : JS.num;
  avgEconomicLoss : JS.num;
  count : nat
}.

Definition toBar (entry : string * Summary) : Bar :=
  {| name := entry.1;
     avgResponseTime := s_avgResponseTime entry.2;
     avgCasualties := s_avgCasualties entry.2;
     avgEconomicLoss := s_avgEconomicLoss entry.2;
     count := s_count entry.2 |}.

Definition chartData (data : list Event) : list Bar :=
  toBar <$> aggregated data.

(** [metricKey], as the property it selects. *)
Definition metricKey (metric : string) : Bar → JS.num :=
  if String.eqb metric "response_time_hours" then avgResponseTime
  else if String.eqb metric "casualties" then avgCasualties
  else avgEconomicLoss.

(** [chartData.sort((a, b) => b[metricKey] - a[metricKey])]. *)
Definition sorted (groups : list Bar) (metric : string) : list Bar :=
  JS.sort (λ a b, JS.sub (metricKey metric b) (metricKey metric a)) groups.

(** [chartData.slice(0, 15)] after the sort. *)
Definition ranked (groups : list Bar) (metric : string) : list Bar :=
  JS.slice0 15 (sorted groups metric).

(** The upper end of the domain given to [xScale] and to [colorScale],
    [d3.max(chartData, (d) => d[metricKey])], over the ranked bars. *)
Definition xDomainMax (bars : list Bar) (metric : string) : JS.num :=
  d3.max bars (metricKey metric).

(** The argument that [getColor] gives to the interpolator when the
    metric is the response time: [1 - value / d3.max(...)]. *)
Definition reversedColorParameter (bars : list Bar) (metric : string) (value : JS.num)
  : JS.num :=
  JS.sub (Some 1%Qc) (JS.div value (d3.max bars (metricKey metric))).

End CountryRankChart.

(** ** [TimeTrendChart]: cross-tabulation and stacking *)

Module TimeTrendChart.

(** [nested]: year -> disaster type -> number of events. *)
Definition nested (data : list Event) : d3.Map Z (d3.Map string nat) :=
  d3.rollup2 data length year disaster_type.

(** [years] and [types]: the distinct values, sorted by the default order
    of [sort()] (years through their decimal writing). *)
Definition years (data : list Event) : list Z :=
  JS.sort_default (λ y : Z, pretty y) (JS.Set_from (year <$> data)).

Definition types (data : list Event) : list string :=
  JS.sort_default id (JS.Set_from (disaster_type <$> data)).

(** [nested.get(year)?.get(type) || 0]. *)
Definition cell (data : list Event) (y : Z) (type : string) : Z :=
  match d3.get (nested data) y ≫= (λ byType, d3.get byType type) with
  | Some n => if (n =? 0)%nat then 0%Z else Z.of_nat n
  | None => 0%Z
  end.

(** One element of [stackData]: the object [{ year }], to which
    [obj[type] = ...] is applied for each type. *)
Definition stackRow (data : list Event) (y : Z) : JS.Object :=
  foldl (λ obj type, JS.Object_set obj type (cell data y type))
        {["year" := y]} (types data).

Definition stackData (data : list Event) : list JS.Object :=
  stackRow data <$> years data.

Definition visibleTypes (data : list Event) (hiddenTypes : gset string) : list string :=
  filter (λ t, t ∉ hiddenTypes) (types data).

Definition series (data : list Event) (hiddenTypes : gset string)
  : list (string * list d3.Point) :=
  d3.stack (visibleTypes data hiddenTypes) (stackData data).

(** [toggleType]: the click on a legend entry. *)
Definition toggleType (prev : gset string) (type : string) : gset string :=
  if decide (type ∈ prev) then prev ∖ {[type]} else prev ∪ {[type]}.

(** The tooltip of a layer: [stackData.find((item) => item.year === year)],
    and, when a row is found, the value [yearData[d.key]] it shows. *)
Definition yearData (data : list Event) (y : Z) : option JS.Object :=
  List.find (λ item, JS.strict_equals (JS.Object_get item "year") y)
            (stackData data).

Definition tooltipEvents (data : list Event) (y : Z) (key : string)
  : option JS.Value :=
  (λ item : JS.Object, JS.Object_get item key) <$> yearData data y.

End TimeTrendChart.

(** ** [KpiCards]: totals of the filtered subset *)

Module KpiCards.

Record Kpis := {
  totalEvents : nat;
  totalCasualties : Qc;
  totalEconomicLoss : Qc;
  avgResponseTime : JS.num
}.

Definition kpis (data : list Event) : Kpis :=
  match data with
  | [] =>
      {| totalEvents := 0; totalCasualties := 0; totalEconomicLoss := 0;
         avgResponseTime := Some 0%Qc |}
  | _ :: _ =>
      {| totalEvents := length data;
         totalCasualties := d3.sum data casualties;
         totalEconomicLoss := d3.sum data economic_loss_usd;
         avgResponseTime := d3.mean data response_time_hours |}
  end.

End KpiCards.

(** ** A reference host

    An [Engine] for worked examples. It reads the fragment of the host
    grammars that the examples use, as ECMAScript does: date-only ISO
    strings [YYYY-MM-DD] (midnight UTC, with the calendar read in UTC),
    and decimal literals with an optional sign and fraction for [+s]
    (the empty string converts to [0]). Every other string is rejected,
    so nothing is claimed about the host outside this fragment. *)

Module ReferenceHost.

Definition digit (c : ascii) : option Z :=
  let n := Z.of_N (N_of_ascii c) in
  if ((48 <=? n) && (n <=? 57))%Z then Some (n - 48)%Z else None.

(** A non-empty run of decimal digits. *)
Fixpoint digits_from (acc : Z) (s : string) : option Z :=
  match s with
  | EmptyString => Some acc
  | String c s' => d ← digit c; digits_from (10 * acc + d)%Z s'
  end.

Definition digits (s : string) : option Z :=
  match s with
  | EmptyString => None
  | _ => digits_from 0 s
  end.

Definition is_leap (y : Z) : bool :=
  ((y mod 4 =? 0) && negb (y mod 100 =? 0) || (y mod 400 =? 0))%Z.

Definition days_in_month (y m : Z) : Z :=
  if (m =? 2)%Z then (if is_leap y then 29 else 28)%Z
  else if ((m =? 4) || (m =? 6) || (m =? 9) || (m =? 11))%Z then 30%Z
  else 31%Z.

(** Days since 1970-01-01 of a civil date, and back. *)
Definition days_from_civil (y m d : Z) : Z :=
  let y := (if m <=? 2 then y - 1 else y)%Z in
  let era := (y / 400)%Z in
  let yoe := (y - era * 400)%Z in
  let doy := ((153 * (if 2 <? m then m - 3 else m + 9) + 2) / 5 + d - 1)%Z in
  let doe := (yoe * 365 + yoe / 4 - yoe / 100 + doy)%Z in
  (era * 146097 + doe - 719468)%Z.

Definition civil_from_days (z : Z) : Z * Z * Z :=
  let z := (z + 719468)%Z in
  let era := (z / 146097)%Z in
  let doe := (z - era * 146097)%Z in
  let yoe := ((doe - doe / 1460 + doe / 36524 - doe / 146096) / 365)%Z in
  let doy := (doe - (365 * yoe + yoe / 4 - yoe / 100))%Z in
  let mp := ((5 * doy + 2) / 153)%Z in
  let d := (doy - (153 * mp + 2) / 5 + 1)%Z in
  let m := (if mp <? 10 then mp + 3 else mp - 9)%Z in
  ((yoe + era * 400 + (if m <=? 2 then 1 else 0))%Z, m, d).

Definition msPerDay : Z := 86400000.

Definition parse_iso_date (s : string) : option Z :=
  if negb (String.length s =? 10)%nat then None
  else if negb (String.eqb (String.substring 4 1 s) "-" && String.eqb (String.substring 7 1 s) "-") then None
  else
    y ← digits (String.substring 0 4 s);
    m ← digits (String.substring 5 2 s);
    d ← digits (String.substring 8 2 s);
    if ((1 <=? m) && (m <=? 12) && (1 <=? d) && (d <=? days_in_month y m))%Z
    then Some (days_from_civil y m d * msPerDay)%Z
    else None.

Definition utc_year (t : Z) : Z := (civil_from_days (t / msPerDay)).1.1.
Definition utc_month (t : Z) : Z := ((civil_from_days (t / msPerDay)).1.2 - 1)%Z.

(** The digits before and after the decimal point: [(mantissa, scale)]
    stands for [mantissa / 10^scale]. *)
Fixpoint decimal_from (acc : Z) (scale : option nat) (s : string) : option (Z * nat) :=
  match s with
  | EmptyString => Some (acc, default 0%nat scale)
  | String c s' =>
      if Ascii.eqb c "."%char then
        match scale with
        | None => decimal_from acc (Some 0%nat) s'
        | Some _ => None
        end
      else
        d ← digit c;
        decimal_from (10 * acc + d)%Z (S <$> scale) s'
  end.

Definition unsigned_decimal (s : string) : option Qc :=
  match s with
  | EmptyString => None
  | "."%string => None
  | _ =>
      '(mantissa, scale) ← decimal_from 0 None s;
      Some (Qc_of_Z mantissa / Qc_of_Z (10 ^ Z.of_nat scale))%Qc
  end.

Definition string_to_number (s : string) : option Qc :=
  match s with
  | EmptyString => Some 0%Qc
  | String c s' =>
      if Ascii.eqb c "-"%char then Qcopp <$> unsigned_decimal s'
      else if Ascii.eqb c "+"%char then unsigned_decimal s'
      else unsigned_decimal s
  end.

#[export] Instance engine : Engine :=
  {| Date_parse := parse_iso_date;
     getFullYear := utc_year;
     getMonth := utc_month;
     StringToNumber := string_to_number |}.

End ReferenceHost.

(** ** Vocabulary of the properties

    The notions in which the properties below are stated, and the sample
    data of the worked examples. *)

(** A raw row passes validation: its date parses to a valid instant and
    its country and disaster type are present and non-empty. *)
Definition validRow `{Engine} (d : RawRow) : Prop :=
  is_Some (d !! "date" ≫= Date_parse)
  ∧ (∃ c, d !! "country" = Some c ∧ c ≠ ""%string)
  ∧ (∃ t, d !! "disaster_type" = Some t ∧ t ≠ ""%string).

(** The numeric measures of a parsed row, with the raw field each is read
    from. *)
Definition measures : list (string * (useDisasterData.Parsed → Qc)) :=
  [ ("severity_index"%string, useDisasterData.p_severity_index);
    ("casualties"%string, useDisasterData.p_casualties);
    ("economic_loss_usd"%string, useDisasterData.p_economic_loss_usd);
    ("response_time_hours"%string, useDisasterData.p_response_time_hours);
    ("aid_amount_usd"%string, useDisasterData.p_aid_amount_usd);
    ("response_efficiency_score"%string, useDisasterData.p_response_efficiency_score);
    ("recovery_days"%string, useDisasterData.p_recovery_days) ].

(** The number a raw field converts to, when it is present and parses. *)
Definition parsedNumber `{Engine} (d : RawRow) (field : string) : option Qc :=
  d !! field ≫= StringToNumber.

(** A record is selected by a filter state. *)
Definition selects (st : Dashboard.State) (r : Event) : Prop :=
  ((Dashboard.yearRange st).1 ≤ year r ≤ (Dashboard.yearRange st).2)%Z
  ∧ (Dashboard.selectedType st = "All"%string
     ∨ disaster_type r = Dashboard.selectedType st)
  ∧ (Dashboard.selectedCountry st = "All"%string
     ∨ country r = Dashboard.selectedCountry st).

(** The sum of a list of numbers, and their arithmetic mean. *)
Definition Qc_sum (l : list Qc) : Qc := foldr Qcplus 0%Qc l.

Definition arithmetic_mean (l : list Qc) : Qc :=
  (Qc_sum l / Qc_of_Z (Z.of_nat (length l)))%Qc.

(** [b] does not rank above [a]: both metric values are numbers and the
    value of [b] is at most that of [a]. *)
Definition not_above (value : CountryRankChart.Bar → JS.num)
    (a b : CountryRankChart.Bar) : Prop :=
  ∃ x y, value a = Some x ∧ value b = Some y ∧ (y ≤ x)%Qc.


Definition Z_sum (l : list Z) : Z := foldr Z.add 0%Z l.

(** The bands of the keys [keys] over the rows [rows], on top of the
    heights [base], when the value of key [k] in row [d] is [value d k]. *)
Fixpoint cumulative {D} (value : D → string → Z) (rows : list D)
    (base : D → Z) (keys : list string) : list (string * list d3.Point) :=
  match keys with
  | [] => []
  | k :: keys' =>
      (k, (λ d, (Some (base d), Some (base d + value d k)%Z)) <$> rows)
      :: cumulative value rows (λ d, (base d + value d k)%Z) keys'
  end.

(** The number of records of a year and a type: the cell of the
    cross-tabulation. *)
Definition count (data : list Event) (y : Z) (t : string) : Z :=
  Z.of_nat (length (filter (λ r, year r = y ∧ disaster_type r = t) data)).

(** The total height of a stack at the row of index [j]: the top of its
    last layer ([0] when it has no layer). *)
Definition height (s : list (string * list d3.Point)) (j : nat) : option Z :=
  match last s with
  | None => Some 0%Z
  | Some (_, band) => band !! j ≫= snd
  end.

(** Sample data. An event of a type and country in a year, with its
    casualties and response time; a raw row with a negative measure. *)
Definition sample_event (ty c : string) (y : Z) (cas resp : Z) : Event :=
  {| date := 0; country := c; disaster_type := ty;
     severity_index := 0; casualties := Qc_of_Z cas; economic_loss_usd := 0;
     response_time_hours := Qc_of_Z resp; aid_amount_usd := 0;
     response_efficiency_score := 0; recovery_days := 0;
     latitude := 0; longitude := 0;
     year := y; month := 1; yearMonth := "" |}.

Definition negative_row : RawRow :=
  list_to_map [ ("date", "2020-03-15"); ("country", "Chile");
                ("disaster_type", "Flood"); ("casualties", "-5") ]%string.

(** Six events of two types, two countries and two years. *)
Definition events : list Event :=
  [ sample_event "Flood" "Chile" 2019 2 12; sample_event "Fire" "Peru" 2019 7 30;
    sample_event "Flood" "Chile" 2019 4 12; sample_event "Flood" "Peru" 2019 6 30;
    sample_event "Fire" "Chile" 2019 1 12; sample_event "Fire" "Chile" 2020 1 12 ].

(** One event per country, with response times 12, 30, 30 and 5. *)
Definition four_countries : list Event :=
  [ sample_event "Flood" "A" 2019 0 12; sample_event "Flood" "B" 2019 0 30;
    sample_event "Flood" "C" 2019 0 30; sample_event "Flood" "D" 2019 0 5 ].

(** Three events of one year, one of them of a type called [__proto__]. *)
Definition proto_events : list Event :=
  [ sample_event "Flood" "Chile" 2020 0 0; sample_event "__proto__" "Chile" 2020 0 0;
    sample_event "storm" "Chile" 2020 0 0 ].

(** * Properties *)

(** ** Facts about the run-time functions *)

Section js_facts.
Context {A : Type}.

Lemma truthy_spec (v : option string) :
  JS.truthy v = true ↔ ∃ s, v = Some s ∧ s ≠ ""%string.
Proof.
  destruct v as [s|]; simpl.
  - rewrite negb_true_iff. split.
    + intros Hs. exists s. split; [done|]. intros ->. by rewrite String.eqb_refl in Hs.
    + intros (s' & [= <-] & Hne). by apply String.eqb_neq.
  - split; [done|]. by intros (? & ? & _).
Qed.

Lemma or_zero_spec (x : JS.num) :
  JS.or_zero x = match x with Some q => q | None => 0%Qc end.
Proof.
  unfold JS.or_zero, JS.truthy_num. destruct x as [q|]; [|done].
  case_bool_decide; simpl; congruence.
Qed.

Lemma Set_from_snoc `{EqDecision A} (xs : list A) (x : A) :
  JS.Set_from (xs ++ [x]) = JS.Set_add (JS.Set_from xs) x.
Proof. unfold JS.Set_from. by rewrite foldl_app. Qed.

Lemma Set_from_elem_of `{EqDecision A} (xs : list A) (x : A) :
  x ∈ JS.Set_from xs ↔ x ∈ xs.
Proof.
  revert x. induction xs as [|y xs IH] using rev_ind; intros x.
  - done.
  - rewrite Set_from_snoc. unfold JS.Set_add.
    case_decide as Hy; rewrite !elem_of_app, !list_elem_of_singleton, IH.
    + split; [by left|]. intros [Hx| ->]; [done|]. by apply IH.
    + done.
Qed.

Lemma Set_from_NoDup `{EqDecision A} (xs : list A) : NoDup (JS.Set_from xs).
Proof.
  induction xs as [|y xs IH] using rev_ind.
  - constructor.
  - rewrite Set_from_snoc. unfold JS.Set_add.
    case_decide; [done|].
    apply NoDup_app. split_and!; [done| |apply NoDup_singleton].
    intros z Hz ->%list_elem_of_singleton. done.
Qed.

Lemma insert_sorted_Permutation (before : A → A → bool) x l :
  JS.insert_sorted before x l ≡ₚ x :: l.
Proof.
  induction l as [|y l IH]; simpl; [done|].
  destruct (before x y); [done|].
  rewrite IH. apply Permutation_swap.
Qed.

Lemma sort_with_Permutation (before : A → A → bool) l :
  JS.sort_with before l ≡ₚ l.
Proof.
  induction l as [|x l IH]; simpl; [done|].
  by rewrite insert_sorted_Permutation, IH.
Qed.

Lemma sort_with_elem_of (before : A → A → bool) l x :
  x ∈ JS.sort_with before l ↔ x ∈ l.
Proof. by rewrite sort_with_Permutation. Qed.

Lemma sort_with_length (before : A → A → bool) l :
  length (JS.sort_with before l) = length l.
Proof. by rewrite sort_with_Permutation. Qed.

Lemma StronglySorted_weaken (R R' : A → A → Prop) (l : list A) :
  (∀ x y, x ∈ l → y ∈ l → R x y → R' x y) →
  StronglySorted R l → StronglySorted R' l.
Proof.
  intros HR Hs. induction Hs as [|x l Hl IH Hx]; [constructor|].
  constructor.
  - apply IH. intros y z Hy Hz. apply HR; by right.
  - apply Forall_forall. intros y Hy. apply HR; [by left|by right|].
    by eapply Forall_forall in Hx.
Qed.

(** Sortedness, for an order that is total and transitive on the elements
    that satisfy an invariant [Q] of the array. *)
Section sorted.
Variable before : A → A → bool.
Variable Q : A → Prop.
Hypothesis before_total : ∀ x y, Q x → Q y → before x y = true ∨ before y x = true.
Hypothesis before_trans :
  ∀ x y z, Q x → Q y → Q z → before x y = true → before y z = true → before x z = true.

Lemma insert_sorted_StronglySorted x l :
  Q x → Forall Q l →
  StronglySorted (λ a b, before a b = true) l →
  StronglySorted (λ a b, before a b = true) (JS.insert_sorted before x l).
Proof using before_total before_trans.
  intros Hx HQ Hs. induction Hs as [|y l Hl IH Hy]; simpl.
  - repeat constructor.
  - apply Forall_cons in HQ as [HQy HQl].
    destruct (before x y) eqn:Hxy.
    + constructor; [by constructor|].
      constructor; [done|].
      apply Forall_forall. intros z Hz.
      apply (before_trans x y z); try done.
      * by eapply Forall_forall in HQl.
      * by eapply Forall_forall in Hy.
    + constructor; [by apply IH|].
      rewrite insert_sorted_Permutation. constructor; [|done].
      destruct (before_total x y); congruence.
Qed.

Lemma sort_with_StronglySorted l :
  Forall Q l → StronglySorted (λ a b, before a b = true) (JS.sort_with before l).
Proof using before_total before_trans.
  induction 1 as [|x l Hx Hl IH]; simpl; [constructor|].
  apply insert_sorted_StronglySorted; [done| |done].
  by rewrite sort_with_Permutation.
Qed.

End sorted.



Lemma filter_all (P : A → Prop) `{!∀ x, Decision (P x)} (l : list A) :
  Forall P l → filter P l = l.
Proof.
  induction 1 as [|x l Hx _ IH]; [done|].
  by rewrite filter_cons_True, IH.
Qed.

Lemma filter_none (P : A → Prop) `{!∀ x, Decision (P x)} (l : list A) :
  Forall (λ x, ¬ P x) l → filter P l = [].
Proof.
  induction 1 as [|x l Hx _ IH]; [done|].
  by rewrite filter_cons_False.
Qed.

End js_facts.

(** The default sort of an array of strings is ascending. *)
Lemma sort_default_before (x y : string) :
  negb (String.ltb y x) = true ↔ String.le x y.
Proof.
  unfold String.le, String.ltb, String.leb.
  rewrite (String.compare_antisym y x).
  destruct (String.compare x y); simpl; split; (done || discriminate || intros []).
Qed.

Lemma sort_default_StronglySorted (l : list string) :
  StronglySorted String.le (JS.sort_default id l).
Proof.
  unfold JS.sort_default.
  eapply (StronglySorted_weaken (λ a b, negb (String.ltb (id b) (id a)) = true)).
  { intros x y _ _. apply sort_default_before. }
  apply (sort_with_StronglySorted _ (λ _, True)).
  - intros x y _ _. rewrite !sort_default_before. apply total, _.
  - intros x y z _ _ _. rewrite !sort_default_before. apply transitivity.
  - by apply Forall_forall.
Qed.

(** ** The normaliser *)

Section normaliser.
Context `{Engine}.
Import useDisasterData.

Lemma isValid_parseRow (d : RawRow) : isValid (parseRow d) = true ↔ validRow d.
Proof.
  unfold isValid, validRow, parseRow, new_Date; simpl.
  rewrite !andb_true_iff, bool_decide_eq_true, !truthy_spec. tauto.
Qed.

#[local] Instance validRow_dec d : Decision (validRow d).
Proof.
  destruct (isValid (parseRow d)) eqn:Hv.
  - left. by apply isValid_parseRow.
  - right. intros Hd%isValid_parseRow. congruence.
Defined.

Lemma validData_filter (rawData : list RawRow) :
  validData rawData = parseRow <$> filter validRow rawData.
Proof.
  unfold validData, parsedData.
  induction rawData as [|d rows IH]; [done|].
  rewrite fmap_cons, !filter_cons, IH.
  destruct (decide (validRow d)) as [Hd|Hd]; case_decide as Hv; try done.
  - by apply isValid_parseRow in Hd.
  - by apply isValid_parseRow in Hv.
Qed.

Lemma number_field_spec (d : RawRow) (field : string) :
  number_field d field = default 0%Qc (parsedNumber d field).
Proof.
  unfold number_field, parsedNumber, unary_plus. rewrite or_zero_spec.
  by destruct (d !! field ≫= StringToNumber).
Qed.

(** Every valid parsed row has a typed view, with the same fields. *)
Lemma toEvent_parseRow (d : RawRow) :
  validRow d → ∃ e, toEvent (parseRow d) = Some e
    ∧ Some (country e) = d !! "country"
    ∧ Some (disaster_type e) = d !! "disaster_type"
    ∧ Some (year e) = getFullYear <$> (d !! "date" ≫= Date_parse)
    ∧ casualties e = default 0%Qc (parsedNumber d "casualties").
Proof.
  intros ([t Ht] & (c & Hc & _) & (ty & Hty & _)).
  unfold toEvent, parseRow, new_Date; simpl.
  rewrite Ht, Hc, Hty; simpl.
  eexists; split; [done|]. simpl. by rewrite number_field_spec.
Qed.

(** The dataset handed to the dashboard holds one typed event for each
    valid parsed row, in the same order. *)
Lemma data_typed (rawData : list RawRow) :
  Forall2 (λ d e, toEvent d = Some e) (validData rawData) (data rawData).
Proof.
  unfold data. rewrite validData_filter.
  assert (Forall validRow (filter validRow rawData)) as Hall.
  { apply Forall_forall. by intros d [Hd _]%list_elem_of_filter. }
  induction Hall as [|d rows Hd _ IH]; [constructor|].
  destruct (toEvent_parseRow d Hd) as (e & He & _).
  rewrite fmap_cons. simpl. rewrite He. simpl. by constructor.
Qed.

(** C2 (as amended): the valid records are exactly the rows that pass the
    three validations, parsed one by one in input order, nothing merged or
    removed twice; the rows left out are exactly those that fail a
    validation. The hook returns these records only: the number of rows
    dropped, [length rawData - length (validData rawData)], is not part of
    what it yields. *)
Theorem validData_exact (rawData : list RawRow) :
  validData rawData = parseRow <$> filter validRow rawData
  ∧ (∀ p, p ∈ validData rawData ↔ ∃ d, d ∈ rawData ∧ validRow d ∧ p = parseRow d)
  ∧ length rawData
    = (length (validData rawData) + length (filter (λ d, ¬ validRow d) rawData))%nat.
Proof.
  split_and!; [apply validData_filter| |].
  { intros p. rewrite validData_filter, list_elem_of_fmap.
    split.
    - intros (d & -> & [Hd Hin]%list_elem_of_filter). by exists d.
    - intros (d & Hin & Hd & ->). exists d. split; [done|]. by apply list_elem_of_filter. }
  rewrite validData_filter, length_fmap.
  induction rawData as [|d rows IH]; [done|].
  rewrite !filter_cons.
  destruct (decide (validRow d)); case_decide; try done; simpl; lia.
Qed.

(** C8 (as amended): each numeric measure of a parsed row is [0] when the
    raw field is missing or does not convert to a number, and is otherwise
    the number it converts to, sign included; so a measure is negative
    exactly when its input converts to a negative number. *)
Theorem measures_coerced (d : RawRow) :
  Forall (λ m : string * (Parsed → Qc),
            m.2 (parseRow d) = default 0%Qc (parsedNumber d m.1)
            ∧ (parsedNumber d m.1 = None → m.2 (parseRow d) = 0%Qc)
            ∧ ((m.2 (parseRow d) < 0)%Qc ↔ ∃ q, parsedNumber d m.1 = Some q ∧ (q < 0)%Qc))
         measures.
Proof.
  assert (∀ field, let x := number_field d field in
            x = default 0%Qc (parsedNumber d field)
            ∧ (parsedNumber d field = None → x = 0%Qc)
            ∧ ((x < 0)%Qc ↔ ∃ q, parsedNumber d field = Some q ∧ (q < 0)%Qc)) as Hfield.
  { intros field x. subst x. rewrite number_field_spec.
    destruct (parsedNumber d field) as [q|]; simpl.
    - split_and!; [done|done|]. split; [by exists q|]. by intros (q' & [= <-] & Hq).
    - split_and!; [done|done|]. split; [|by intros (q' & [=] & _)].
      intros Hneg. by apply Qclt_not_le in Hneg. }
  unfold measures. repeat (constructor; [apply Hfield|]). constructor.
Qed.

End normaliser.


(** ** The dashboard *)

Section dashboard.
Import Dashboard.

Lemma matches_selects (st : State) (r : Event) :
  matches st r = true ↔ selects st r.
Proof.
  unfold matches, selects.
  rewrite !andb_true_iff, !orb_true_iff, !Z.leb_le, !String.eqb_eq. tauto.
Qed.

#[local] Instance selects_dec st r : Decision (selects st r).
Proof.
  destruct (matches st r) eqn:Hm.
  - left. by apply matches_selects.
  - right. intros Hs%matches_selects. congruence.
Defined.

Lemma filteredData_filter (data : list Event) (st : State) :
  filteredData data st = filter (selects st) data.
Proof.
  unfold filteredData. apply list_filter_iff. intros r. apply matches_selects.
Qed.

(** C1: the filtered subset is the input with exactly the selected records
    kept, each as often and in the order it occurs in the input; so a
    record is in it iff it is a record of the input that the state
    selects. [filteredData] is a function of the record list and the
    state, and the record list is a value: the same arguments give the
    same subset, and filtering again with the same state changes nothing. *)
Theorem filteredData_selects (data : list Event) (st : State) :
  filteredData data st = filter (selects st) data
  ∧ (∀ r, r ∈ filteredData data st ↔ r ∈ data ∧ selects st r)
  ∧ filteredData data st `sublist_of` data
  ∧ filteredData (filteredData data st) st = filteredData data st.
Proof.
  split_and!.
  - apply filteredData_filter.
  - intros r. rewrite filteredData_filter, list_elem_of_filter. tauto.
  - rewrite filteredData_filter. apply sublist_filter.
  - rewrite !filteredData_filter. apply list_filter_filter_r. tauto.
Qed.

Lemma Math_min_spec (y : Z) (ys : list Z) :
  Math_min y ys ∈ y :: ys ∧ ∀ z, z ∈ y :: ys → (Math_min y ys ≤ z)%Z.
Proof.
  unfold Math_min. revert y. induction ys as [|x ys IH]; intros y; simpl.
  - split; [by left|]. intros z ->%list_elem_of_singleton. lia.
  - destruct (IH (Z.min y x)) as [Hin Hle]. split.
    + apply elem_of_cons in Hin as [->|Hin].
      * destruct (Z.min_spec y x) as [[_ ->]|[_ ->]]; [by left|by right; left].
      * by right; right.
    + intros z Hz. apply elem_of_cons in Hz as [->|Hz].
      * specialize (Hle (Z.min y x) ltac:(by left)). lia.
      * apply elem_of_cons in Hz as [->|Hz].
        -- specialize (Hle (Z.min y x) ltac:(by left)). lia.
        -- apply Hle. by right.
Qed.

Lemma Math_max_spec (y : Z) (ys : list Z) :
  Math_max y ys ∈ y :: ys ∧ ∀ z, z ∈ y :: ys → (z ≤ Math_max y ys)%Z.
Proof.
  unfold Math_max. revert y. induction ys as [|x ys IH]; intros y; simpl.
  - split; [by left|]. intros z ->%list_elem_of_singleton. lia.
  - destruct (IH (Z.max y x)) as [Hin Hle]. split.
    + apply elem_of_cons in Hin as [->|Hin].
      * destruct (Z.max_spec y x) as [[_ ->]|[_ ->]]; [by right; left|by left].
      * by right; right.
    + intros z Hz. apply elem_of_cons in Hz as [->|Hz].
      * specialize (Hle (Z.max y x) ltac:(by left)). lia.
      * apply elem_of_cons in Hz as [->|Hz].
        -- specialize (Hle (Z.max y x) ltac:(by left)). lia.
        -- apply Hle. by right.
Qed.

(** The year extent of a non-empty dataset is its least and greatest year. *)
Lemma yearExtent_spec (data : list Event) :
  data ≠ [] →
  (∃ r, r ∈ data ∧ year r = (yearExtent data).1)
  ∧ (∃ r, r ∈ data ∧ year r = (yearExtent data).2)
  ∧ ∀ r, r ∈ data → ((yearExtent data).1 ≤ year r ≤ (yearExtent data).2)%Z.
Proof.
  intros Hne. unfold yearExtent.
  destruct data as [|r0 data]; [done|]. rewrite fmap_cons.
  destruct (Math_min_spec (year r0) (year <$> data)) as [Hmin_in Hmin].
  destruct (Math_max_spec (year r0) (year <$> data)) as [Hmax_in Hmax].
  rewrite <- fmap_cons in Hmin_in, Hmax_in, Hmin, Hmax. simpl.
  apply list_elem_of_fmap in Hmin_in as (rmin & Hrmin & ?).
  apply list_elem_of_fmap in Hmax_in as (rmax & Hrmax & ?).
  split_and!; [by exists rmin|by exists rmax|].
  intros r Hr. split; [apply Hmin|apply Hmax]; by apply list_elem_of_fmap_2.
Qed.

(** C7: on a non-empty dataset, reset (from any state, reachable or not)
    sets the year range to the least and the greatest year of the full
    dataset and both selectors to ["All"]; the state it gives selects every
    record, so the filtered subset is the full dataset. *)
Theorem reset_restores (data : list Event) (st : State) :
  data ≠ [] →
  let st' := update data st Reset in
  (∃ rmin rmax, rmin ∈ data ∧ rmax ∈ data
     ∧ yearRange st' = (year rmin, year rmax)
     ∧ ∀ r, r ∈ data → (year rmin ≤ year r ≤ year rmax)%Z)
  ∧ selectedType st' = "All"%string
  ∧ selectedCountry st' = "All"%string
  ∧ filteredData data st' = data.
Proof.
  intros Hne st'.
  destruct (yearExtent_spec data Hne) as ((rmin & Hmin & Emin) & (rmax & Hmax & Emax) & Hall).
  split_and!; [|done|done|].
  - exists rmin, rmax. split_and!; [done|done| |].
    + subst st'. simpl. rewrite Emin, Emax. by destruct (yearExtent data).
    + intros r Hr. rewrite Emin, Emax. by apply Hall.
  - rewrite filteredData_filter. apply filter_all.
    apply Forall_forall. intros r Hr. unfold selects. subst st'. simpl.
    split; [by apply Hall|]. split; by left.
Qed.

(** X3: The countries offered by the dropdown: the sentinel first, then the
    distinct countries of the full dataset in ascending order. *)
Lemma uniqueCountries_sorted (data : list Event) :
  data ≠ [] →
  ∃ countries, uniqueCountries data = "All"%string :: countries
    ∧ StronglySorted String.le countries
    ∧ NoDup countries
    ∧ ∀ c, c ∈ countries ↔ ∃ r, r ∈ data ∧ country r = c.
Proof.
  intros Hne. unfold uniqueCountries. destruct data as [|r0 data]; [done|].
  eexists; split; [done|]. split_and!.
  - apply sort_default_StronglySorted.
  - unfold JS.sort_default. rewrite sort_with_Permutation. apply Set_from_NoDup.
  - intros c. unfold JS.sort_default.
    rewrite sort_with_Permutation, Set_from_elem_of, list_elem_of_fmap.
    split; intros (r & Hr1 & Hr2); by exists r.
Qed.

(** The types offered by the dropdown: the sentinel and the distinct
    types of the full dataset, all in one ascending order; the sentinel
    stands where that order puts it. *)
Lemma uniqueTypes_sorted (data : list Event) :
  data ≠ [] →
  StronglySorted String.le (uniqueTypes data)
  ∧ uniqueTypes data ≡ₚ "All"%string :: JS.Set_from (disaster_type <$> data)
  ∧ ∀ t, t ∈ uniqueTypes data ↔ t = "All"%string ∨ ∃ r, r ∈ data ∧ disaster_type r = t.
Proof.
  intros Hne. unfold uniqueTypes. destruct data as [|r0 data]; [done|].
  split_and!.
  - apply sort_default_StronglySorted.
  - apply sort_with_Permutation.
  - intros t. unfold JS.sort_default.
    rewrite sort_with_Permutation, elem_of_cons, Set_from_elem_of, list_elem_of_fmap.
    split; (intros [->|(r & Hr1 & Hr2)]; [by left|right; by exists r]).
Qed.

(** C10: on the empty dataset both dropdown lists are empty (no ["All"]
    entry), and the year extent, which the range controls and reset use,
    is the default [(2018, 2024)]. *)
Theorem empty_dataset_defaults (data : list Event) (st : State) :
  length data = 0%nat →
  uniqueTypes data = []
  ∧ uniqueCountries data = []
  ∧ yearExtent data = (2018, 2024)%Z
  ∧ yearRange (handleReset data st) = (2018, 2024)%Z.
Proof. intros ->%nil_length_inv. done. Qed.

(** X1: The year range of every reachable state is ordered: a slider
    value that would cross the other bound is ignored and leaves the state
    as it is, any other value becomes the new bound with the other bound
    kept, and reset installs the extent of the dataset. *)
Lemma yearRange_ordered (data : list Event) (st : State) :
  reachable data st →
  ((yearRange st).1 ≤ (yearRange st).2)%Z
  ∧ (∀ newMin, ((yearRange st).2 < newMin)%Z → update data st (SetYearMin newMin) = st)
  ∧ (∀ newMax, (newMax < (yearRange st).1)%Z → update data st (SetYearMax newMax) = st)
  ∧ (∀ newMin, (newMin ≤ (yearRange st).2)%Z →
       yearRange (update data st (SetYearMin newMin)) = (newMin, (yearRange st).2))
  ∧ (∀ newMax, ((yearRange st).1 ≤ newMax)%Z →
       yearRange (update data st (SetYearMax newMax)) = ((yearRange st).1, newMax))
  ∧ yearRange (update data st Reset) = yearExtent data.
Proof.
  intros Hst. split_and!.
  - induction Hst as [|st a Hst IH]; [simpl; lia|].
    destruct a; simpl; try done.
    + destruct (newMin <=? (yearRange st).2)%Z eqn:Hle; [|done].
      simpl. by apply Z.leb_le.
    + destruct ((yearRange st).1 <=? newMax)%Z eqn:Hle; [|done].
      simpl. by apply Z.leb_le.
    + destruct data as [|r0 data]; [simpl; lia|].
      destruct (yearExtent_spec (r0 :: data)) as (_ & _ & Hall); [done|].
      specialize (Hall r0 ltac:(by left)). lia.
  - intros newMin Hlt. simpl.
    destruct (newMin <=? (yearRange st).2)%Z eqn:Hle; [|done].
    apply Z.leb_le in Hle. lia.
  - intros newMax Hlt. simpl.
    destruct ((yearRange st).1 <=? newMax)%Z eqn:Hle; [|done].
    apply Z.leb_le in Hle. lia.
  - intros newMin Hle. simpl. by rewrite (proj2 (Z.leb_le _ _) Hle).
  - intros newMax Hle. simpl. by rewrite (proj2 (Z.leb_le _ _) Hle).
  - done.
Qed.

(** X2: Widening the year range, with the selectors unchanged, never makes
    the filtered subset shorter. *)
Lemma filteredData_widen (data : list Event) (st st' : State) :
  ((yearRange st').1 ≤ (yearRange st).1)%Z →
  ((yearRange st).2 ≤ (yearRange st').2)%Z →
  selectedType st' = selectedType st →
  selectedCountry st' = selectedCountry st →
  (length (filteredData data st) ≤ length (filteredData data st'))%nat.
Proof.
  intros Hlo Hhi Hty Hc. rewrite !filteredData_filter.
  induction data as [|r data IH]; [done|].
  rewrite !filter_cons.
  destruct (decide (selects st r)) as [Hs|Hs].
  - rewrite decide_True; [simpl; lia|].
    destruct Hs as (Hy & Ht & Hco). unfold selects. rewrite Hty, Hc.
    split; [lia|done].
  - destruct (decide (selects st' r)); simpl; lia.
Qed.

End dashboard.

(** ** Facts about the d3 functions *)

Section d3_facts.
Context {K A : Type} `{EqDecision K}.
Implicit Types (values : list A) (keyof : A → K).

Lemma get_fmap {V} (F : K → V) (ks : list K) (k : K) :
  d3.get ((λ k', (k', F k')) <$> ks) k = if decide (k ∈ ks) then Some (F k) else None.
Proof.
  induction ks as [|k0 ks IH].
  - by destruct (decide (k ∈ [])) as [Hin%not_elem_of_nil|].
  - rewrite fmap_cons. cbn [d3.get].
    destruct (decide (k0 = k)) as [->|Hne].
    + by rewrite decide_True by left.
    + rewrite IH. destruct (decide (k ∈ ks)) as [Hin|Hin].
      * by rewrite decide_True by (by right).
      * rewrite decide_False; [done|]. intros [?|?]%elem_of_cons; congruence.
Qed.

Lemma push_fmap (G : K → list A) (ks : list K) (k : K) (v : A) :
  NoDup ks →
  d3.push k v ((λ k', (k', G k')) <$> ks)
  = if decide (k ∈ ks)
    then (λ k', (k', if decide (k' = k) then G k' ++ [v] else G k')) <$> ks
    else ((λ k', (k', G k')) <$> ks) ++ [(k, [v])].
Proof.
  induction 1 as [|k0 ks Hk0 Hks IH].
  - by destruct (decide (k ∈ [])) as [Hin%not_elem_of_nil|].
  - rewrite !fmap_cons. cbn [d3.push].
    destruct (decide (k0 = k)) as [->|Hne].
    + rewrite !decide_True by (done || by left). f_equal.
      apply list_fmap_ext. intros _ k' Hk'%list_elem_of_lookup_2.
      rewrite decide_False; [done|]. by intros ->.
    + rewrite IH. destruct (decide (k ∈ ks)) as [Hin|Hin].
      * by rewrite decide_True by (by right).
      * rewrite decide_False; [done|]. intros [?|?]%elem_of_cons; congruence.
Qed.

(** The groups of [d3.group]: one per distinct key, in the order in which
    the keys first occur, each holding the values of its key in input
    order. *)
Lemma group_spec values keyof :
  d3.group values keyof
  = (λ k, (k, filter (λ a, keyof a = k) values)) <$> JS.Set_from (keyof <$> values).
Proof.
  induction values as [|v values IH] using rev_ind; [done|].
  unfold d3.group in *. rewrite foldl_app. simpl. rewrite IH.
  rewrite fmap_app. change (keyof <$> [v]) with [keyof v]. rewrite Set_from_snoc.
  rewrite push_fmap by apply Set_from_NoDup.
  unfold JS.Set_add.
  destruct (decide (keyof v ∈ JS.Set_from (keyof <$> values))) as [Hin|Hin].
  - apply list_fmap_ext. intros _ k _. f_equal.
    rewrite filter_app, filter_cons, filter_nil.
    destruct (decide (k = keyof v)) as [->|Hne].
    + by rewrite decide_True.
    + rewrite decide_False by congruence. by rewrite app_nil_r.
  - rewrite fmap_app. simpl. f_equal.
    + apply list_fmap_ext. intros _ k Hk%list_elem_of_lookup_2. f_equal.
      rewrite filter_app, filter_cons, filter_nil.
      rewrite decide_False; [by rewrite app_nil_r|]. intros <-. done.
    + f_equal. f_equal.
      rewrite filter_app, filter_cons, filter_nil, decide_True by done.
      rewrite filter_none; [done|].
      apply Forall_forall. intros a Ha Hk. apply Hin.
      apply Set_from_elem_of. rewrite <- Hk. by apply list_elem_of_fmap_2.
Qed.

Lemma rollup_spec {R} values (reduce : list A → R) keyof :
  d3.rollup values reduce keyof
  = (λ k, (k, reduce (filter (λ a, keyof a = k) values)))
      <$> JS.Set_from (keyof <$> values).
Proof.
  unfold d3.rollup. rewrite group_spec, <- list_fmap_compose. done.
Qed.

Lemma rollup_keys {R} values (reduce : list A → R) keyof :
  (d3.rollup values reduce keyof).*1 = JS.Set_from (keyof <$> values).
Proof.
  rewrite rollup_spec, <- list_fmap_compose. apply list_fmap_id.
Qed.

Lemma rollup_get {R} values (reduce : list A → R) keyof (k : K) :
  d3.get (d3.rollup values reduce keyof) k
  = if decide (k ∈ keyof <$> values)
    then Some (reduce (filter (λ a, keyof a = k) values))
    else None.
Proof.
  rewrite rollup_spec, get_fmap.
  destruct (decide (k ∈ JS.Set_from (keyof <$> values))) as [Hin|Hin];
    rewrite Set_from_elem_of in Hin.
  - by rewrite decide_True.
  - by rewrite decide_False.
Qed.

Lemma mean_spec values (accessor : A → Qc) :
  d3.mean values accessor
  = match values with
    | [] => None
    | _ :: _ => Some (arithmetic_mean (accessor <$> values))
    end.
Proof.
  unfold d3.mean, arithmetic_mean.
  assert (∀ count sum,
    foldl (λ '(count, sum) value, (S count, (sum + accessor value)%Qc)) (count, sum) values
    = ((count + length values)%nat, (sum + Qc_sum (accessor <$> values))%Qc)) as Hfold.
  { induction values as [|v values IH]; intros count sum.
    - simpl. f_equal; [lia|ring].
    - rewrite fmap_cons. cbn [foldl length]. rewrite IH.
      unfold Qc_sum. cbn [foldr]. f_equal; [lia|ring]. }
  rewrite Hfold. destruct values as [|v values]; [done|].
  rewrite length_fmap. cbn [length Nat.add Nat.eqb]. do 2 f_equal. ring.
Qed.

End d3_facts.

(** ** Aggregation by disaster type *)

Section type_severity.
Import TypeSeverityChart.

Lemma key_elem_of_filter {K} `{EqDecision K} (keyof : Event → K) (data : list Event) (k : K) :
  k ∈ keyof <$> data ↔ filter (λ r, keyof r = k) data ≠ [].
Proof.
  split.
  - intros (r & -> & Hr)%list_elem_of_fmap Hnil.
    by eapply (filter_nil_not_elem_of _ _ r) in Hnil.
  - intros Hne. destruct (filter _ data) as [|r g] eqn:Hg; [done|].
    assert (r ∈ filter (λ r, keyof r = k) data) as [<- Hr]%list_elem_of_filter
      by (rewrite Hg; by left).
    by apply list_elem_of_fmap_2.
Qed.

Lemma reducer_spec (g : list Event) :
  g ≠ [] →
  s_count (reducer g) = length g
  ∧ s_avgCasualties (reducer g) = Some (arithmetic_mean (casualties <$> g))
  ∧ s_avgEconomicLoss (reducer g) = Some (arithmetic_mean (economic_loss_usd <$> g)).
Proof.
  intros Hg. unfold reducer; simpl. rewrite !mean_spec.
  by destruct g.
Qed.

Lemma arithmetic_mean_2_4_6 :
  arithmetic_mean [Qc_of_Z 2; Qc_of_Z 4; Qc_of_Z 6] = Qc_of_Z 4.
Proof. apply Qc_is_canon. vm_compute. reflexivity. Qed.

(** C3: the table of the aggregator has one entry per disaster type that
    occurs in the subset (and none for any other key); the entry of a type
    holds the number of its records and, for each measure, the arithmetic
    mean over them. A group whose casualties are [2, 4, 6] gets mean [4]
    and count [3]; the table of the empty subset is empty. *)
Theorem aggregated_means (data : list Event) :
  let table := aggregated data in
  let group k := filter (λ r, disaster_type r = k) data in
  NoDup table.*1
  ∧ (∀ k, k ∈ table.*1 ↔ ∃ r, r ∈ data ∧ disaster_type r = k)
  ∧ (∀ k s, (k, s) ∈ table →
       group k ≠ []
       ∧ s_count s = length (group k)
       ∧ s_avgCasualties s = Some (arithmetic_mean (casualties <$> group k))
       ∧ s_avgEconomicLoss s = Some (arithmetic_mean (economic_loss_usd <$> group k)))
  ∧ (∀ k, casualties <$> group k = [Qc_of_Z 2; Qc_of_Z 4; Qc_of_Z 6] →
       ∃ s, d3.get table k = Some s
         ∧ s_avgCasualties s = Some (Qc_of_Z 4) ∧ s_count s = 3%nat)
  ∧ aggregated [] = [].
Proof.
  intros table group. subst table. unfold aggregated.
  split_and!.
  - rewrite rollup_keys. apply Set_from_NoDup.
  - intros k. rewrite rollup_keys, Set_from_elem_of, list_elem_of_fmap.
    split; intros (r & Hr1 & Hr2); by exists r.
  - intros k s. rewrite rollup_spec.
    intros (k' & [= <- ->] & Hk)%list_elem_of_fmap.
    rewrite Set_from_elem_of in Hk. apply key_elem_of_filter in Hk.
    split; [done|]. by apply reducer_spec.
  - intros k Hk.
    assert (group k ≠ []) as Hne by (intros E; by rewrite E in Hk).
    rewrite rollup_get, decide_True by (by apply key_elem_of_filter).
    eexists; split; [done|].
    destruct (reducer_spec (group k) Hne) as (Hc & Hm & _).
    fold (group k). rewrite Hm, Hc, Hk, arithmetic_mean_2_4_6.
    split; [done|]. by rewrite <- (length_fmap casualties), Hk.
  - done.
Qed.

End type_severity.

(** ** Ranking of countries *)

Section country_rank.
Import CountryRankChart.

Lemma compare_desc_spec (x y : Qc) :
  negb (JS.positive (JS.sub (Some y) (Some x))) = true ↔ (y ≤ x)%Qc.
Proof.
  simpl. rewrite negb_true_iff, bool_decide_eq_false.
  unfold Qcminus. rewrite <- Qclt_minus_iff.
  split; [apply Qcnot_lt_le|apply Qcle_not_lt].
Qed.

Lemma reducer_numbers (g : list Event) :
  g ≠ [] →
  is_Some (s_avgResponseTime (reducer g))
  ∧ is_Some (s_avgCasualties (reducer g))
  ∧ is_Some (s_avgEconomicLoss (reducer g)).
Proof.
  intros Hg. unfold reducer; simpl. rewrite !mean_spec.
  destruct g; [done|]. by split_and!.
Qed.

Lemma chartData_numbers (data : list Event) (metric : string) :
  Forall (λ b, is_Some (metricKey metric b)) (chartData data).
Proof.
  apply Forall_forall. intros b. unfold chartData, aggregated.
  rewrite rollup_spec, <- list_fmap_compose.
  intros (k & -> & Hk)%list_elem_of_fmap.
  rewrite Set_from_elem_of in Hk. apply key_elem_of_filter in Hk.
  destruct (reducer_numbers _ Hk) as (H1 & H2 & H3).
  unfold metricKey. by repeat case_match.
Qed.

Lemma sorted_descending (groups : list Bar) (metric : string) :
  Forall (λ b, is_Some (metricKey metric b)) groups →
  StronglySorted (not_above (metricKey metric)) (sorted groups metric).
Proof.
  intros Hnum. unfold sorted, JS.sort.
  set (before := λ x y : Bar,
         negb (JS.positive (JS.sub (metricKey metric y) (metricKey metric x)))).
  assert (∀ a b, is_Some (metricKey metric a) → is_Some (metricKey metric b) →
            (before a b = true ↔ not_above (metricKey metric) a b)) as Hbefore.
  { intros a b [x Hx] [y Hy]. unfold before, not_above. rewrite Hx, Hy.
    rewrite compare_desc_spec. split.
    - intros Hle. by exists x, y.
    - by intros (x' & y' & [= <-] & [= <-] & Hle). }
  assert (StronglySorted (λ a b, before a b = true) (JS.sort_with before groups)) as Hs.
  { apply (sort_with_StronglySorted before (λ b, is_Some (metricKey metric b))); [| |done].
    - intros a b [x Hx] [y Hy]. unfold before. rewrite Hx, Hy, !compare_desc_spec.
      destruct (Qclt_le_dec x y) as [Hlt|Hle]; [right; by apply Qclt_le_weak|by left].
    - intros a b c [x Hx] [y Hy] [z Hz]. unfold before.
      rewrite Hx, Hy, Hz, !compare_desc_spec. intros H1 H2. by eapply Qcle_trans. }
  assert (Forall (λ b, is_Some (metricKey metric b)) (JS.sort_with before groups)) as Hnum'
    by (by rewrite sort_with_Permutation).
  induction Hs as [|a l Hl IH Ha]; [constructor|].
  apply Forall_cons in Hnum' as [Hnum_a Hnum_l].
  constructor; [by apply IH|].
  apply Forall_forall. intros b Hb. apply Hbefore; [done| |].
  - by eapply Forall_forall in Hnum_l.
  - by eapply Forall_forall in Ha.
Qed.





End country_rank.

(** ** Systematic sampling *)

Section sampling.
Import ResponseScatterChart.
Context {A : Type}.

(** With [r < step] the distance from [index] to the next multiple of
    [step], the filter keeps the elements at [r], [r + step], ... *)
Lemma filter_index_lookup (step : nat) (l : list A) :
  ∀ index r k, (r < step)%nat → ((index + r) mod step = 0)%nat →
    JS.filter_index (λ i, (i mod step =? 0)%nat) index l !! k
    = l !! (r + k * step)%nat.
Proof.
  induction l as [|x l IH]; intros index r k Hr Hmul; [done|].
  apply Nat.Div0.mod_divides in Hmul as [c Hc].
  cbn [JS.filter_index].
  destruct (index mod step =? 0)%nat eqn:Hi.
  - apply Nat.eqb_eq, Nat.Div0.mod_divides in Hi as [c' Hc'].
    assert (r = 0)%nat as ->.
    { destruct (le_lt_dec c c') as [Hcc|Hcc].
      - assert (step * c ≤ step * c')%nat by (apply Nat.mul_le_mono_l; lia). lia.
      - assert (step * (c' + 1) ≤ step * c)%nat by (apply Nat.mul_le_mono_l; lia). lia. }
    destruct k as [|k]; [done|].
    replace (0 + S k * step)%nat with (S (step - 1 + k * step)) by lia.
    rewrite !lookup_cons. apply (IH (S index) (step - 1)%nat k).
    + lia.
    + apply Nat.Div0.mod_divides. exists (S c'). lia.
  - apply Nat.eqb_neq in Hi.
    destruct r as [|r].
    { exfalso. apply Hi, Nat.Div0.mod_divides. exists c. lia. }
    change (S r + k * step)%nat with (S (r + k * step)). rewrite lookup_cons.
    apply (IH (S index) r k).
    + lia.
    + apply Nat.Div0.mod_divides. exists c. lia.
Qed.

Lemma sampledData_small (data : list A) :
  (length data ≤ MAX_POINTS)%nat → sampledData data = data.
Proof.
  intros Hle. unfold sampledData.
  destruct (MAX_POINTS <? length data)%nat eqn:Hlt; [|done].
  apply Nat.ltb_lt in Hlt. lia.
Qed.

Lemma sampledData_large (data : list A) :
  (MAX_POINTS < length data)%nat →
  let step := (length data / MAX_POINTS)%nat in
  (1 ≤ step)%nat
  ∧ length (sampledData data) = MAX_POINTS
  ∧ ∀ k, (k < MAX_POINTS)%nat →
      sampledData data !! k = data !! (k * step)%nat
      ∧ (k * step < length data)%nat.
Proof.
  intros Hlt step. unfold sampledData.
  apply Nat.ltb_lt in Hlt as Hlt'. rewrite Hlt'. fold step.
  assert (MAX_POINTS * step ≤ length data)%nat as Hmul
    by apply Nat.Div0.mul_div_le.
  assert (1 ≤ step)%nat as Hstep.
  { subst step. apply Nat.div_le_lower_bound; unfold MAX_POINTS in *; lia. }
  assert (∀ k, (k < MAX_POINTS)%nat → (k * step < length data)%nat) as Hin by nia.
  assert (∀ k, JS.filter_index (λ i, (i mod step =? 0)%nat) 0 data !! k
               = data !! (k * step)%nat) as Hlook.
  { intros k. rewrite (filter_index_lookup step data 0 0 k); [done|lia|].
    by rewrite Nat.Div0.mod_0_l. }
  split_and!; [done| |].
  - unfold JS.slice0. apply length_take_le.
    assert (MAX_POINTS - 1 < length (JS.filter_index (λ i, (i mod step =? 0)%nat) 0 data))%nat;
      [|unfold MAX_POINTS in *; lia].
    apply lookup_lt_is_Some. rewrite Hlook. apply lookup_lt_is_Some, Hin.
    unfold MAX_POINTS. lia.
  - intros k Hk. split; [|by apply Hin].
    unfold JS.slice0. by rewrite lookup_take_lt, Hlook.
Qed.

(** C4: a list of at most 2000 records is returned as it is (so the empty
    list gives the empty list); a longer one, with
    [step = length / 2000] rounded down, gives the 2000 records at the
    indices [0], [step], [2 * step], ... of the input, in that order. The
    sample of a non-empty list is never empty. *)
Theorem sampledData_systematic (data : list A) :
  let step := (length data / MAX_POINTS)%nat in
  MAX_POINTS = 2000%nat
  ∧ ((length data ≤ MAX_POINTS)%nat → sampledData data = data)
  ∧ ((MAX_POINTS < length data)%nat →
       (1 ≤ step)%nat
       ∧ length (sampledData data) = MAX_POINTS
       ∧ ∀ k, (k < MAX_POINTS)%nat →
           sampledData data !! k = data !! (k * step)%nat
           ∧ (k * step < length data)%nat)
  ∧ (length (sampledData data) ≤ MAX_POINTS)%nat
  ∧ (data ≠ [] → sampledData data ≠ [])
  ∧ sampledData (@nil A) = [].
Proof.
  intros step. split_and!.
  - done.
  - apply sampledData_small.
  - apply sampledData_large.
  - destruct (decide (length data ≤ MAX_POINTS)%nat) as [Hle|Hgt].
    + by rewrite sampledData_small.
    + destruct (sampledData_large data) as (_ & -> & _); lia.
  - intros Hne. destruct (decide (length data ≤ MAX_POINTS)%nat) as [Hle|Hgt].
    + by rewrite sampledData_small.
    + destruct (sampledData_large data) as (_ & Hlen & _); [lia|].
      intros E. rewrite E in Hlen. unfold MAX_POINTS in Hlen. discriminate.
  - done.
Qed.

End sampling.

(** ** Stacking *)

Section stack_facts.

Lemma Z_sum_cons (x : Z) (l : list Z) : Z_sum (x :: l) = (x + Z_sum l)%Z.
Proof. done. Qed.

Lemma Z_sum_app (l1 l2 : list Z) : Z_sum (l1 ++ l2) = (Z_sum l1 + Z_sum l2)%Z.
Proof.
  induction l1 as [|x l1 IH]; [done|].
  rewrite <- app_comm_cons, !Z_sum_cons, IH. lia.
Qed.

Lemma zip_with_fmap_same {D B C E} (f : B → C → E) (g : D → B) (h : D → C) (l : list D) :
  zip_with f (g <$> l) (h <$> l) = (λ d, f (g d) (h d)) <$> l.
Proof. induction l as [|d l IH]; [done|]. csimpl. by rewrite IH. Qed.

Lemma cumulative_length {D} (value : D → string → Z) rows base keys :
  length (cumulative value rows base keys) = length keys.
Proof. revert base. induction keys as [|k keys IH]; intros base; simpl; [done|]. by rewrite IH. Qed.

Lemma cumulative_keys {D} (value : D → string → Z) rows base keys :
  (cumulative value rows base keys).*1 = keys.
Proof. revert base. induction keys as [|k keys IH]; intros base; simpl; [done|]. by rewrite IH. Qed.

Lemma cumulative_ext {D} (value : D → string → Z) rows base base' keys :
  (∀ d, base d = base' d) →
  cumulative value rows base keys = cumulative value rows base' keys.
Proof.
  revert base base'. induction keys as [|k keys IH]; intros base base' Hb; simpl; [done|].
  f_equal.
  - f_equal. apply list_fmap_ext. intros _ d _. by rewrite Hb.
  - apply IH. intros d. by rewrite Hb.
Qed.

Lemma cumulative_lookup {D} (value : D → string → Z) rows base keys i k :
  keys !! i = Some k →
  cumulative value rows base keys !! i
  = Some (k, (λ d, (Some (base d + Z_sum (value d <$> take i keys))%Z,
                    Some (base d + Z_sum (value d <$> take (S i) keys))%Z)) <$> rows).
Proof.
  revert base i. induction keys as [|k0 keys IH]; intros base i Hk; [done|].
  destruct i as [|i].
  - injection Hk as ->. cbn [cumulative]. rewrite lookup_cons. do 2 f_equal.
    apply list_fmap_ext. intros _ d _.
    rewrite take_0, firstn_cons, take_0, fmap_cons, !fmap_nil, Z_sum_cons.
    change (Z_sum []) with 0%Z. do 2 f_equal; lia.
  - rewrite lookup_cons in Hk. cbn [cumulative]. rewrite lookup_cons, (IH _ i Hk).
    do 2 f_equal. apply list_fmap_ext. intros _ d _.
    rewrite !firstn_cons, !fmap_cons, !Z_sum_cons. do 2 f_equal; lia.
Qed.

Lemma offset_step_fmap (rows : list JS.Object) (below base : JS.Object → Z)
    (value : JS.Object → string → Z) (k : string) :
  (∀ d, d ∈ rows → JS.Object_get d k = JS.Number (value d k)) →
  d3.offset_step ((λ d, (Some (below d), Some (base d))) <$> rows)
                 ((λ d, (Some 0%Z, JS.ToNumber (JS.Object_get d k))) <$> rows)
  = (λ d, (Some (base d), Some (base d + value d k)%Z)) <$> rows.
Proof.
  intros Hval. unfold d3.offset_step. rewrite zip_with_fmap_same.
  apply list_fmap_ext. intros _ d Hd%list_elem_of_lookup_2. simpl.
  rewrite (Hval d Hd). do 2 f_equal. lia.
Qed.

(** [d3.stack] on rows that hold a number for every key. *)
Lemma stack_cumulative (keys : list string) (rows : list JS.Object)
    (value : JS.Object → string → Z) :
  (∀ d k, d ∈ rows → k ∈ keys → JS.Object_get d k = JS.Number (value d k)) →
  d3.stack keys rows = cumulative value rows (λ _, 0%Z) keys.
Proof.
  intros Hval. unfold d3.stack, d3.stack_init.
  assert (∀ keys' below base,
            (∀ k, k ∈ keys' → k ∈ keys) →
            d3.offset_from ((λ d, (Some (below d), Some (base d))) <$> rows)
               ((λ key, (key, (λ d, (Some 0%Z, JS.ToNumber (JS.Object_get d key))) <$> rows))
                  <$> keys')
            = cumulative value rows base keys') as Hfrom.
  { induction keys' as [|k keys' IH]; intros below base Hsub; [done|].
    rewrite fmap_cons. cbn [d3.offset_from cumulative].
    rewrite (offset_step_fmap rows below base value k)
      by (intros d Hd; apply Hval; [done|apply Hsub; by left]).
    f_equal. apply IH. intros k' Hk'. apply Hsub. by right. }
  destruct keys as [|k keys']; [done|].
  rewrite fmap_cons. cbn [d3.stackOffsetNone cumulative].
  assert ((λ d : JS.Object, (Some 0%Z, JS.ToNumber (JS.Object_get d k))) <$> rows
          = (λ d, (Some 0%Z, Some (0 + value d k)%Z)) <$> rows) as ->.
  { apply list_fmap_ext. intros _ d Hd%list_elem_of_lookup_2.
    by rewrite (Hval d k Hd) by (by left). }
  f_equal. rewrite (Hfrom keys' (λ _, 0%Z) (λ d, (0 + value d k)%Z)); [done|].
  intros k' Hk'. by right.
Qed.

Lemma Object_get_own (obj : JS.Object) (key : string) (n : Z) :
  key ≠ "__proto__"%string → obj !! key = Some n → JS.Object_get obj key = JS.Number n.
Proof. intros Hk Hn. unfold JS.Object_get. by rewrite decide_False, Hn. Qed.

Lemma foldl_set_lookup (f : string → Z) (ts : list string) (obj : JS.Object) (t : string) :
  foldl (λ o type, JS.Object_set o type (f type)) obj ts !! t
  = if decide (t ∈ ts ∧ t ≠ "__proto__"%string) then Some (f t) else obj !! t.
Proof.
  revert obj. induction ts as [|t0 ts IH]; intros obj.
  - rewrite decide_False; [done|]. by intros [Hin%not_elem_of_nil _].
  - cbn [foldl]. rewrite IH.
    destruct (decide (t ∈ ts ∧ t ≠ "__proto__"%string)) as [[Hin Hne]|Hnot].
    + rewrite decide_True; [done|]. split; [by right|done].
    + unfold JS.Object_set.
      destruct (decide (t0 = "__proto__"%string)) as [->|Hne0].
      * rewrite decide_False; [done|].
        intros [[->|Hin]%elem_of_cons Hne]; [done|]. by apply Hnot.
      * destruct (decide (t = t0)) as [->|Hne].
        -- rewrite decide_True by (split; [by left|done]). apply lookup_insert_eq.
        -- rewrite decide_False.
           ++ by apply lookup_insert_ne.
           ++ intros [[->|Hin]%elem_of_cons Hp]; [done|]. by apply Hnot.
Qed.

End stack_facts.

Section time_trend.
Import TimeTrendChart.

Lemma cumulative_fmap {D D'} (g : D' → D) (value : D → string → Z) l base keys :
  cumulative value (g <$> l) base keys
  = cumulative (λ d, value (g d)) l (λ d, base (g d)) keys.
Proof.
  revert base. induction keys as [|k keys IH]; intros base; [done|].
  cbn [cumulative]. rewrite <- list_fmap_compose. f_equal. apply IH.
Qed.

Lemma cumulative_ext_value {D} (value value' : D → string → Z) rows base keys :
  (∀ d k, k ∈ keys → value d k = value' d k) →
  cumulative value rows base keys = cumulative value' rows base keys.
Proof.
  revert base. induction keys as [|k keys IH]; intros base Hv; [done|].
  cbn [cumulative].
  assert (∀ d, value d k = value' d k) as Hk by (intros d; apply Hv; by left).
  f_equal.
  - f_equal. apply list_fmap_ext. intros _ d _. by rewrite Hk.
  - rewrite IH by (intros d k' Hk'; apply Hv; by right).
    apply cumulative_ext. intros d. by rewrite Hk.
Qed.

Lemma height_cumulative {D} (value : D → string → Z) rows keys j d :
  rows !! j = Some d →
  height (cumulative value rows (λ _, 0%Z) keys) j = Some (Z_sum (value d <$> keys)).
Proof.
  intros Hd. unfold height. rewrite last_lookup, cumulative_length.
  destruct (keys !! pred (length keys)) as [k|] eqn:Hlast.
  - rewrite (cumulative_lookup _ _ _ _ _ _ Hlast).
    rewrite list_lookup_fmap, Hd. simpl.
    apply lookup_lt_Some in Hlast.
    rewrite take_ge by lia. done.
  - apply lookup_ge_None in Hlast.
    destruct keys as [|k keys]; [done|]. simpl in Hlast. lia.
Qed.

Lemma filter_remove_one (l : list string) (t : string) :
  NoDup l → t ∈ l →
  ∃ l1 l2, l = l1 ++ t :: l2 ∧ filter (λ x, x ≠ t) l = l1 ++ l2.
Proof.
  intros Hnd (l1 & l2 & ->)%list_elem_of_split.
  apply NoDup_app in Hnd as (_ & Hl1 & [Ht Hl2]%NoDup_cons).
  exists l1, l2. split; [done|].
  rewrite filter_app, filter_cons_False by (by intros ?).
  rewrite !filter_all; [done| |].
  - apply Forall_forall. by intros x Hx ->.
  - apply Forall_forall. intros x Hx ->. by eapply Hl1; [|left].
Qed.

Lemma types_Permutation (data : list Event) :
  types data ≡ₚ JS.Set_from (disaster_type <$> data).
Proof. apply sort_with_Permutation. Qed.

Lemma types_elem_of (data : list Event) (t : string) :
  t ∈ types data ↔ ∃ r, r ∈ data ∧ disaster_type r = t.
Proof.
  rewrite types_Permutation, Set_from_elem_of, list_elem_of_fmap.
  split; intros (r & Hr1 & Hr2); by exists r.
Qed.

Lemma types_NoDup (data : list Event) : NoDup (types data).
Proof. rewrite types_Permutation. apply Set_from_NoDup. Qed.

Lemma types_sorted (data : list Event) : StronglySorted String.le (types data).
Proof. apply sort_default_StronglySorted. Qed.

Lemma years_Permutation (data : list Event) :
  years data ≡ₚ JS.Set_from (year <$> data).
Proof. apply sort_with_Permutation. Qed.

Lemma years_elem_of (data : list Event) (y : Z) :
  y ∈ years data ↔ ∃ r, r ∈ data ∧ year r = y.
Proof.
  rewrite years_Permutation, Set_from_elem_of, list_elem_of_fmap.
  split; intros (r & Hr1 & Hr2); by exists r.
Qed.

Lemma years_NoDup (data : list Event) : NoDup (years data).
Proof. rewrite years_Permutation. apply Set_from_NoDup. Qed.

Lemma cell_count (data : list Event) (y : Z) (t : string) :
  cell data y t = count data y t.
Proof.
  unfold cell, count, nested, d3.rollup2.
  assert (filter (λ r, disaster_type r = t) (filter (λ r, year r = y) data)
          = filter (λ r, year r = y ∧ disaster_type r = t) data) as Hff.
  { rewrite list_filter_filter. apply list_filter_iff. tauto. }
  rewrite rollup_get.
  destruct (decide (y ∈ year <$> data)) as [Hy|Hy]; simpl.
  - rewrite rollup_get.
    destruct (decide (t ∈ disaster_type <$> filter (λ r, year r = y) data)) as [Ht|Ht].
    + rewrite Hff. by destruct (length _).
    + rewrite key_elem_of_filter in Ht. apply dec_stable in Ht.
      by rewrite <- Hff, Ht.
  - rewrite key_elem_of_filter in Hy. apply dec_stable in Hy.
    by rewrite <- Hff, Hy.
Qed.

(** The own properties of a row: the count of each type, except that the
    assignment to [__proto__] leaves no property. *)
Lemma stackRow_lookup (data : list Event) (y : Z) (t : string) :
  t ∈ types data → t ≠ "__proto__"%string →
  stackRow data y !! t = Some (count data y t).
Proof.
  intros Ht Hne. unfold stackRow.
  rewrite (foldl_set_lookup (cell data y)), decide_True by done.
  by rewrite cell_count.
Qed.

Lemma stackRow_get (data : list Event) (y : Z) (t : string) :
  t ∈ types data → t ≠ "__proto__"%string →
  JS.Object_get (stackRow data y) t = JS.Number (count data y t).
Proof. intros Ht Hne. apply Object_get_own; [done|]. by apply stackRow_lookup. Qed.

Lemma stackRow_proto (data : list Event) (y : Z) :
  stackRow data y !! "__proto__"%string = None.
Proof.
  unfold stackRow.
  rewrite (foldl_set_lookup (cell data y)), decide_False by (by intros [_ ?]).
  by apply lookup_singleton_ne.
Qed.

Lemma visibleTypes_elem_of (data : list Event) (hiddenTypes : gset string) (t : string) :
  t ∈ visibleTypes data hiddenTypes ↔ t ∈ types data ∧ t ∉ hiddenTypes.
Proof. unfold visibleTypes. rewrite list_elem_of_filter. tauto. Qed.

Lemma no_proto_visible (data : list Event) (hiddenTypes : gset string) :
  (∀ r, r ∈ data → disaster_type r ≠ "__proto__"%string) →
  "__proto__"%string ∉ visibleTypes data hiddenTypes.
Proof.
  intros Hno [(r & Hr & Ht)%types_elem_of _]%visibleTypes_elem_of. by eapply Hno.
Qed.

(** When no visible type is [__proto__], the stacked series are the
    cumulative bands of the visible types over the years, with the cells
    of the cross-tabulation as values. *)
Lemma series_cumulative (data : list Event) (hiddenTypes : gset string) :
  "__proto__"%string ∉ visibleTypes data hiddenTypes →
  series data hiddenTypes
  = cumulative (count data) (years data) (λ _, 0%Z) (visibleTypes data hiddenTypes).
Proof.
  intros Hno.
  assert (∀ k, k ∈ visibleTypes data hiddenTypes →
               k ∈ types data ∧ k ≠ "__proto__"%string) as Hk.
  { intros k Hk. split; [by apply visibleTypes_elem_of in Hk as [? _]|by intros ->]. }
  unfold series, stackData.
  rewrite (stack_cumulative _ _ (λ d k, default 0%Z (d !! k))).
  - rewrite cumulative_fmap. apply cumulative_ext_value.
    intros y k [Ht Hne]%Hk. by rewrite stackRow_lookup.
  - intros d k (y & -> & _)%list_elem_of_fmap [Ht Hne]%Hk.
    rewrite stackRow_lookup by done. by apply stackRow_get.
Qed.

Lemma visibleTypes_toggle (data : list Event) (hiddenTypes : gset string) (t : string) :
  t ∈ visibleTypes data hiddenTypes →
  ∃ l1 l2, visibleTypes data hiddenTypes = l1 ++ t :: l2
         ∧ visibleTypes data (toggleType hiddenTypes t) = l1 ++ l2.
Proof.
  intros Ht.
  assert (toggleType hiddenTypes t = hiddenTypes ∪ {[t]}) as ->.
  { unfold toggleType. apply visibleTypes_elem_of in Ht as [_ Ht].
    by rewrite decide_False. }
  destruct (filter_remove_one (visibleTypes data hiddenTypes) t) as (l1 & l2 & E1 & E2);
    [apply NoDup_filter, types_NoDup|done|].
  exists l1, l2. split; [done|]. rewrite <- E2.
  unfold visibleTypes. rewrite list_filter_filter. apply list_filter_iff.
  intros x. rewrite not_elem_of_union, elem_of_singleton. tauto.
Qed.

(** X21: the stack builder on data in which no disaster type is called
    [__proto__]. The years of the table are the distinct years of the
    records and its types the distinct disaster types, in ascending order;
    every cell of the (year, type) table holds the number of records of
    that year and type ([0] when there is none); the series are those of
    the types that are not hidden, in the order of the types, and the band
    of the [i]-th of them in a year runs from the sum of the counts of the
    visible types before it to that sum plus its own count. A hidden type
    has no series: toggling a visible type off removes its series and
    lowers the total height in each year by its count in that year. *)
Theorem series_bands (data : list Event) (hiddenTypes : gset string) :
  (∀ r, r ∈ data → disaster_type r ≠ "__proto__"%string) →
  let visible := visibleTypes data hiddenTypes in
  (NoDup (years data) ∧ ∀ y, y ∈ years data ↔ ∃ r, r ∈ data ∧ year r = y)
  ∧ (NoDup (types data) ∧ StronglySorted String.le (types data)
     ∧ ∀ t, t ∈ types data ↔ ∃ r, r ∈ data ∧ disaster_type r = t)
  ∧ (∀ j y, years data !! j = Some y →
       ∃ row, stackData data !! j = Some row
         ∧ ∀ t, t ∈ types data →
             JS.Object_get row t = JS.Number (count data y t)
             ∧ ((∀ r, r ∈ data → ¬ (year r = y ∧ disaster_type r = t)) →
                JS.Object_get row t = JS.Number 0%Z))
  ∧ (sublist visible (types data)
     ∧ ∀ t, t ∈ visible ↔ (∃ r, r ∈ data ∧ disaster_type r = t) ∧ t ∉ hiddenTypes)
  ∧ (series data hiddenTypes).*1 = visible
  ∧ (∀ i t, visible !! i = Some t →
       series data hiddenTypes !! i
       = Some (t, (λ y, (Some (Z_sum (count data y <$> take i visible)),
                         Some (Z_sum (count data y <$> take i visible) + count data y t)%Z))
                    <$> years data))
  ∧ (∀ t j y, t ∈ visible → years data !! j = Some y →
       (t ∉ (series data (toggleType hiddenTypes t)).*1)
       ∧ length (series data hiddenTypes) = S (length (series data (toggleType hiddenTypes t)))
       ∧ height (series data hiddenTypes) j = Some (Z_sum (count data y <$> visible))
       ∧ height (series data (toggleType hiddenTypes t)) j
         = Some (Z_sum (count data y <$> visible) - count data y t)%Z).
Proof.
  intros Hno visible.
  assert (∀ t, t ∈ types data → t ≠ "__proto__"%string) as Hne.
  { intros t (r & Hr & <-)%types_elem_of. by apply Hno. }
  pose proof (no_proto_visible data) as Hvis.
  split_and!.
  - apply years_NoDup.
  - apply years_elem_of.
  - apply types_NoDup.
  - apply types_sorted.
  - apply types_elem_of.
  - intros j y Hy. exists (stackRow data y). split.
    + unfold stackData. by rewrite list_lookup_fmap, Hy.
    + intros t Ht. split; [apply stackRow_get; auto|].
      intros Hnone. rewrite stackRow_get by auto. unfold count.
      rewrite filter_none; [done|]. by apply Forall_forall.
  - apply sublist_filter.
  - intros t. subst visible. by rewrite visibleTypes_elem_of, types_elem_of.
  - rewrite series_cumulative by auto. apply cumulative_keys.
  - intros i t Hi. rewrite series_cumulative by auto.
    rewrite (cumulative_lookup _ _ _ _ _ _ Hi). do 2 f_equal.
    apply list_fmap_ext. intros _ y _.
    rewrite (take_S_r _ _ _ Hi), fmap_app, Z_sum_app. simpl.
    do 2 f_equal; lia.
  - intros t j y Ht Hy.
    destruct (visibleTypes_toggle data hiddenTypes t Ht) as (l1 & l2 & E1 & E2).
    rewrite !series_cumulative, !cumulative_keys, !cumulative_length by auto.
    rewrite !(height_cumulative _ _ _ _ _ Hy).
    subst visible. split_and!.
    + rewrite E2. intros [Hin|Hin]%elem_of_app.
      * pose proof (types_NoDup data) as Hnd.
        apply (NoDup_filter (λ t, t ∉ hiddenTypes)) in Hnd.
        fold (visibleTypes data hiddenTypes) in Hnd. rewrite E1 in Hnd.
        apply NoDup_app in Hnd as (_ & Hl1 & _). by eapply Hl1; [|left].
      * pose proof (types_NoDup data) as Hnd.
        apply (NoDup_filter (λ t, t ∉ hiddenTypes)) in Hnd.
        fold (visibleTypes data hiddenTypes) in Hnd. rewrite E1 in Hnd.
        by apply NoDup_app in Hnd as (_ & _ & [Hl2 _]%NoDup_cons).
    + rewrite E1, E2, !length_app. simpl. lia.
    + done.
    + rewrite E1, E2. f_equal.
      rewrite !fmap_app, fmap_cons, !Z_sum_app, Z_sum_cons. lia.
Qed.

End time_trend.

(** ** Worked examples, witnesses and counterexamples *)

Section examples.
Import useDisasterData ReferenceHost Dashboard.

(** The reference host on the sample row. *)
Example negative_row_parsed :
  p_date (parseRow negative_row) = Some 1584230400000%Z
  ∧ p_year (parseRow negative_row) = Some 2020%Z
  ∧ p_month (parseRow negative_row) = Some 3%Z
  ∧ p_yearMonth (parseRow negative_row) = "2020-03"%string
  ∧ p_casualties (parseRow negative_row) = Qc_of_Z (-5)
  ∧ p_severity_index (parseRow negative_row) = 0%Qc
  ∧ isValid (parseRow negative_row) = true.
Proof. split_and!; try (vm_compute; reflexivity); by apply Qc_is_canon. Qed.

(** C2 (counterexample to the claim as stated): the result of the
    normaliser does not determine how many rows were dropped. The empty
    input and the input of one empty row both give no record, with no row
    and one row dropped. *)
Lemma no_dropped_count :
  ¬ ∃ f : list Parsed → nat,
      ∀ rawData : list RawRow,
        f (validData rawData) = (length rawData - length (validData rawData))%nat.
Proof.
  intros [f Hf].
  pose proof (Hf []) as H0. pose proof (Hf [∅]) as H1.
  assert (validData [∅] = []) as E1 by (vm_compute; reflexivity).
  assert (validData [] = []) as E0 by reflexivity.
  rewrite E1 in H1. rewrite E0 in H0. simpl in H0, H1. congruence.
Qed.

(** C8 (counterexample to the claim as stated): a valid row whose
    [casualties] field reads ["-5"] is kept with casualties [-5]. *)
Lemma negative_casualties_kept :
  ¬ ∀ (rawData : list RawRow) d, d ∈ validData rawData →
      Forall (λ m : string * (Parsed → Qc), (0 ≤ m.2 d)%Qc) measures.
Proof.
  intros Hall.
  specialize (Hall [negative_row] (parseRow negative_row)).
  assert (validData [negative_row] = [parseRow negative_row]) as E
    by (vm_compute; reflexivity).
  rewrite E in Hall. specialize (Hall ltac:(by left)).
  apply Forall_cons in Hall as [_ Hall].
  apply Forall_cons in Hall as [Hneg _].
  revert Hneg. vm_compute. intros Hneg. by apply Hneg.
Qed.

(** C9 (the code on a failing input): with a disaster type that sorts
    before ["All"], the list of types does not begin with the sentinel,
    because [uniqueTypes] sorts after it has put the sentinel in front;
    [uniqueCountries], which sorts first, keeps the sentinel in front. *)
Theorem uniqueTypes_sentinel_not_first :
  uniqueTypes [sample_event "Flood" "Chile" 2020 1 1;
               sample_event "Accident" "Albania" 2021 1 1]
  = ["Accident"; "All"; "Flood"]%string
  ∧ uniqueCountries [sample_event "Flood" "Chile" 2020 1 1;
                     sample_event "Accident" "Albania" 2021 1 1]
    = ["All"; "Albania"; "Chile"]%string.
Proof. split; vm_compute; reflexivity. Qed.

(** Witness of C7: reset after a filter edit, on a dataset of two years. *)
Lemma reset_restores_witness :
  [sample_event "Flood" "Chile" 2019 1 1; sample_event "Fire" "Peru" 2021 1 1] ≠ []
  ∧ filteredData
      [sample_event "Flood" "Chile" 2019 1 1; sample_event "Fire" "Peru" 2021 1 1]
      (update
         [sample_event "Flood" "Chile" 2019 1 1; sample_event "Fire" "Peru" 2021 1 1]
         (update
            [sample_event "Flood" "Chile" 2019 1 1; sample_event "Fire" "Peru" 2021 1 1]
            initial (SetYearMin 2020))
         Reset)
    = [sample_event "Flood" "Chile" 2019 1 1; sample_event "Fire" "Peru" 2021 1 1].
Proof.
  split; [discriminate|].
  apply (reset_restores
           [sample_event "Flood" "Chile" 2019 1 1; sample_event "Fire" "Peru" 2021 1 1]).
  discriminate.
Defined.

(** Witness of C10: the empty dataset. *)
Lemma empty_dataset_defaults_witness :
  length (@nil Event) = 0%nat
  ∧ uniqueTypes [] = []
  ∧ uniqueCountries [] = []
  ∧ yearExtent [] = (2018, 2024)%Z
  ∧ yearRange (handleReset [] initial) = (2018, 2024)%Z.
Proof.
  split; [reflexivity|].
  apply (empty_dataset_defaults [] initial). reflexivity.
Defined.

(** C6: a disaster type called [__proto__] gets no cell in the table:
    [obj["__proto__"] = n] creates no property, in no row. One record of
    2020 has that type, yet the row of 2020 holds no count for it; the
    band of the type is [[1, NaN]] and not [[1, 2]], the band of the type
    after it is [[1, 2]] and not [[2, 3]], and the total height is [2]
    whether the type is hidden or not. The tooltip of the layer shows the
    prototype object. *)
Theorem series_proto_band :
  (∀ data y, TimeTrendChart.stackRow data y !! "__proto__"%string = None)
  ∧ count proto_events 2020 "__proto__" = 1%Z
  ∧ TimeTrendChart.types proto_events = ["Flood"; "__proto__"; "storm"]%string
  ∧ TimeTrendChart.years proto_events = [2020%Z]
  ∧ TimeTrendChart.stackRow proto_events 2020 !! "__proto__"%string = None
  ∧ TimeTrendChart.series proto_events ∅
    = [ ("Flood", [(Some 0, Some 1)]); ("__proto__", [(Some 1, None)]);
        ("storm", [(Some 1, Some 2)]) ]%string%Z
  ∧ cumulative (count proto_events) [2020%Z] (λ _, 0%Z) ["Flood"; "__proto__"; "storm"]%string
    = [ ("Flood", [(Some 0, Some 1)]); ("__proto__", [(Some 1, Some 2)]);
        ("storm", [(Some 2, Some 3)]) ]%string%Z
  ∧ height (TimeTrendChart.series proto_events ∅) 0 = Some 2%Z
  ∧ height (TimeTrendChart.series proto_events (TimeTrendChart.toggleType ∅ "__proto__")) 0
    = Some 2%Z
  ∧ TimeTrendChart.tooltipEvents proto_events 2020 "__proto__" = Some JS.Inherited.
Proof. split_and!; [apply stackRow_proto|vm_compute; reflexivity..]. Qed.

End examples.

(** ** The components on sample data *)

Section worked.
Import Dashboard.

Example filteredData_events :
  filteredData events
    {| yearRange := (2019, 2019)%Z; selectedType := "Fire"; selectedCountry := "All";
       rankingMetric := "casualties"; scatterYAxis := "casualties" |}
  = [sample_event "Fire" "Peru" 2019 7 30; sample_event "Fire" "Chile" 2019 1 12].
Proof. reflexivity. Qed.

(** The floods have casualties 2, 4, 6: mean 4, count 3. *)
Example aggregated_events :
  (λ e : string * TypeSeverityChart.Summary,
     (e.1, this <$> TypeSeverityChart.s_avgCasualties e.2, TypeSeverityChart.s_count e.2))
    <$> TypeSeverityChart.aggregated events
  = [("Flood"%string, Some (4 # 1)%Q, 3%nat); ("Fire"%string, Some (3 # 1)%Q, 3%nat)].
Proof. vm_compute. reflexivity. Qed.

(** Descending by mean response time; [B] and [C] tie and keep their
    order; all four countries fit in the first 15. *)
Example ranked_four_countries :
  CountryRankChart.name
    <$> CountryRankChart.ranked (CountryRankChart.chartData four_countries)
          "response_time_hours"
  = ["B"; "C"; "A"; "D"]%string.
Proof. vm_compute. reflexivity. Qed.

(** The cross-tab is dense, the types are stacked in the order of
    [types], and a hidden type leaves no layer. *)
Example series_events :
  TimeTrendChart.years events = [2019; 2020]%Z
  ∧ TimeTrendChart.types events = ["Fire"; "Flood"]%string
  ∧ TimeTrendChart.series events ∅
    = [ ("Fire"%string, [(Some 0, Some 2); (Some 0, Some 1)]%Z);
        ("Flood"%string, [(Some 2, Some 5); (Some 1, Some 1)]%Z) ]
  ∧ TimeTrendChart.series events (TimeTrendChart.toggleType ∅ "Fire")
    = [ ("Flood"%string, [(Some 0, Some 3); (Some 0, Some 0)]%Z) ].
Proof. split_and!; vm_compute; reflexivity. Qed.

(** The default order of [sort()] on years is that of their decimal
    writing. *)
Example years_by_decimal_writing :
  TimeTrendChart.years
    [sample_event "Flood" "A" 999 0 12; sample_event "Flood" "A" 2018 0 12]
  = [2018; 999]%Z.
Proof. vm_compute. reflexivity. Qed.

(** 10000 records: step 5, the records at indices 0, 5, 10, ... *)
Example sampledData_10000 :
  take 4 (ResponseScatterChart.sampledData (seq 0 (Z.to_nat 10000))) = [0; 5; 10; 15]%nat
  ∧ length (ResponseScatterChart.sampledData (seq 0 (Z.to_nat 10000))) = 2000%nat.
Proof. split; vm_compute; reflexivity. Qed.

(** A state reached through the sliders, for the two lemmas on ranges. *)
Lemma yearRange_ordered_witness :
  reachable events (update events initial (SetYearMin 2020))
  ∧ yearRange (update events initial (SetYearMin 2020)) = (2020, 2024)%Z
  ∧ update events (update events initial (SetYearMin 2020)) (SetYearMax 2019)
    = update events initial (SetYearMin 2020)
  ∧ yearRange (update events (update events initial (SetYearMin 2020)) (SetYearMax 2021))
    = (2020, 2021)%Z.
Proof.
  split; [repeat constructor|]. split; [reflexivity|].
  destruct (yearRange_ordered events (update events initial (SetYearMin 2020)))
    as (_ & _ & Hignored & _ & Htaken & _); [repeat constructor|].
  split; [apply Hignored|apply Htaken]; simpl; lia.
Defined.

Lemma filteredData_widen_witness :
  (length (filteredData events (update events initial (SetYearMin 2020)))
   ≤ length (filteredData events initial))%nat.
Proof.
  apply (filteredData_widen events); simpl; (lia || reflexivity).
Defined.

Lemma uniqueCountries_sorted_witness :
  events ≠ []
  ∧ ∃ countries, uniqueCountries events = "All"%string :: countries
      ∧ StronglySorted String.le countries
      ∧ NoDup countries
      ∧ ∀ c, c ∈ countries ↔ ∃ r, r ∈ events ∧ country r = c.
Proof.
  split; [discriminate|]. apply (uniqueCountries_sorted events). discriminate.
Defined.

End worked.

(** * Further properties of the components *)

(** ** Sums, maxima and groups *)

Section aggregate_facts.
Context {A : Type}.

Lemma Qc_sum_cons (x : Qc) (l : list Qc) : Qc_sum (x :: l) = (x + Qc_sum l)%Qc.
Proof. done. Qed.

Lemma Qc_sum_nonneg (l : list Qc) : Forall (λ x, (0 ≤ x)%Qc) l → (0 ≤ Qc_sum l)%Qc.
Proof.
  induction 1 as [|x l Hx _ IH]; [done|].
  rewrite Qc_sum_cons. replace 0%Qc with (0 + 0)%Qc by ring.
  by apply Qcplus_le_compat.
Qed.

Lemma sum_spec (values : list A) (accessor : A → Qc) :
  d3.sum values accessor = Qc_sum (accessor <$> values).
Proof.
  unfold d3.sum.
  assert (∀ acc, foldl (λ sum value,
                   if JS.truthy_num (Some (accessor value))
                   then (sum + accessor value)%Qc else sum) acc values
                 = (acc + Qc_sum (accessor <$> values))%Qc) as Hfold.
  { induction values as [|v values IH]; intros acc.
    - change (Qc_sum (accessor <$> [])) with 0%Qc. simpl. ring.
    - rewrite fmap_cons, Qc_sum_cons. cbn [foldl]. rewrite IH.
      unfold JS.truthy_num. case_bool_decide as Hz; simpl; [rewrite Hz|]; ring. }
  rewrite Hfold. ring.
Qed.

(** [d3.max]: nothing when no value is a number; otherwise a value that
    occurs and that no value exceeds. *)
Lemma max_spec (values : list A) (accessor : A → JS.num) :
  match d3.max values accessor with
  | None => ∀ a, a ∈ values → accessor a = None
  | Some m =>
      (∃ a, a ∈ values ∧ accessor a = Some m)
      ∧ ∀ a v, a ∈ values → accessor a = Some v → (v ≤ m)%Qc
  end.
Proof.
  induction values as [|a values IH] using rev_ind.
  - simpl. by intros a Ha%not_elem_of_nil.
  - unfold d3.max in *. rewrite foldl_app. cbn [foldl].
    destruct (foldl _ None values) as [m|] eqn:Hmax.
    + destruct IH as [(a0 & Ha0 & Hm) Hle].
      destruct (accessor a) as [v|] eqn:Hv.
      * destruct (decide (m < v)%Qc) as [Hlt|Hge].
        -- split.
           ++ exists a. split; [|done]. apply elem_of_app. right. by left.
           ++ intros b w [Hb| ->%list_elem_of_singleton]%elem_of_app Hw.
              ** apply Qclt_le_weak. eapply Qcle_lt_trans; [|exact Hlt]. by eapply Hle.
              ** rewrite Hv in Hw. injection Hw as <-. apply Qcle_refl.
        -- split.
           ++ exists a0. split; [|done]. apply elem_of_app. by left.
           ++ intros b w [Hb| ->%list_elem_of_singleton]%elem_of_app Hw.
              ** by eapply Hle.
              ** rewrite Hv in Hw. injection Hw as <-. by apply Qcnot_lt_le.
      * split.
        -- exists a0. split; [|done]. apply elem_of_app. by left.
        -- intros b w [Hb| ->%list_elem_of_singleton]%elem_of_app Hw.
           ++ by eapply Hle.
           ++ congruence.
    + destruct (accessor a) as [v|] eqn:Hv.
      * split.
        -- exists a. split; [|done]. apply elem_of_app. right. by left.
        -- intros b w [Hb| ->%list_elem_of_singleton]%elem_of_app Hw.
           ++ rewrite (IH b Hb) in Hw. discriminate.
           ++ rewrite Hv in Hw. injection Hw as <-. apply Qcle_refl.
      * intros b [Hb| ->%list_elem_of_singleton]%elem_of_app; [by apply IH|done].
Qed.

Lemma filter_ext_in (P Q : A → Prop) `{!∀ x, Decision (P x), !∀ x, Decision (Q x)}
    (l : list A) :
  (∀ x, x ∈ l → P x ↔ Q x) → filter P l = filter Q l.
Proof.
  induction l as [|x l IH]; intros HPQ; [done|].
  rewrite !filter_cons, IH by (intros y Hy; apply HPQ; by right).
  destruct (decide (P x)) as [HP|HP].
  - rewrite decide_True; [done|]. apply HPQ; [by left|done].
  - rewrite decide_False; [done|]. intros HQ. apply HP, HPQ; [by left|done].
Qed.

(** The groups of a key partition the list: taken together they hold
    every element exactly as often as the list does. *)
Lemma groups_partition {K} `{EqDecision K} (keyof : A → K) (l : list A) (ks : list K) :
  NoDup ks → (∀ a, a ∈ l → keyof a ∈ ks) →
  concat ((λ k, filter (λ a, keyof a = k) l) <$> ks) ≡ₚ l.
Proof.
  intros Hnd. induction l as [|a l IH]; intros Hks.
  - clear. induction ks as [|k ks IH]; [done|]. by rewrite fmap_cons.
  - destruct (list_elem_of_split ks (keyof a)) as (ks1 & ks2 & ->);
      [apply Hks; by left|].
    apply NoDup_app in Hnd as Hnd'. destruct Hnd' as (_ & Hk1 & [Hk2 _]%NoDup_cons).
    assert (∀ ks' : list K, keyof a ∉ ks' →
              (λ k, filter (λ a', keyof a' = k) (a :: l)) <$> ks'
              = (λ k, filter (λ a', keyof a' = k) l) <$> ks') as Hsame.
    { intros ks' Hnot. apply list_fmap_ext. intros _ k Hk%list_elem_of_lookup_2.
      rewrite filter_cons_False; [done|]. by intros <-. }
    rewrite fmap_app, fmap_cons, concat_app, concat_cons.
    rewrite !Hsame; [|done|intros Hin; by eapply Hk1; [|left]].
    rewrite filter_cons_True by done.
    rewrite <- app_comm_cons, <- Permutation_middle. constructor.
    specialize (IH ltac:(intros b Hb; apply Hks; by right)).
    by rewrite fmap_app, fmap_cons, concat_app, concat_cons in IH.
Qed.

End aggregate_facts.

(** ** The KPI cards *)

Section kpi_cards.
Import KpiCards.

(** The group sizes of a key add up to the length of the list. *)
Lemma groups_length {K} `{EqDecision K} (keyof : Event → K) (data : list Event) :
  sum_list ((λ k, length (filter (λ r, keyof r = k) data))
              <$> JS.Set_from (keyof <$> data))
  = length data.
Proof.
  rewrite <- (Permutation_length
                (groups_partition keyof data (JS.Set_from (keyof <$> data))
                   (Set_from_NoDup _)
                   (λ r Hr, proj2 (Set_from_elem_of _ _) (list_elem_of_fmap_2 _ _ _ Hr)))).
  induction (JS.Set_from (keyof <$> data)) as [|k ks IH]; [done|].
  by rewrite !fmap_cons, concat_cons, length_app, <- IH.
Qed.

(** X4: The KPI cards: the number of events is the length of the subset,
    the totals are the sums of the casualties and of the economic losses
    over the subset, and the average response time is a number for every
    subset, so that its [toFixed] is defined: [0] for the empty subset,
    where a mean does not exist, and the arithmetic mean of the response
    times otherwise. *)
Theorem kpis_totals (data : list Event) :
  totalEvents (kpis data) = length data
  ∧ totalCasualties (kpis data) = Qc_sum (casualties <$> data)
  ∧ totalEconomicLoss (kpis data) = Qc_sum (economic_loss_usd <$> data)
  ∧ avgResponseTime (kpis data)
    = Some (match data with
            | [] => 0%Qc
            | _ :: _ => arithmetic_mean (response_time_hours <$> data)
            end).
Proof.
  destruct data as [|r data]; [done|].
  unfold kpis. cbn [totalEvents totalCasualties totalEconomicLoss avgResponseTime].
  by rewrite !sum_spec, mean_spec.
Qed.

(** X5: The cards and the two aggregated charts count the same events: the
    group counts by type and the group counts by country each add up to
    the number of events on the card, and every group counts at least one
    event. *)
Theorem kpis_match_groups (data : list Event) :
  sum_list (TypeSeverityChart.s_count ∘ snd <$> TypeSeverityChart.aggregated data)
  = totalEvents (kpis data)
  ∧ sum_list (CountryRankChart.s_count ∘ snd <$> CountryRankChart.aggregated data)
    = totalEvents (kpis data)
  ∧ Forall (λ e, (1 ≤ TypeSeverityChart.s_count e.2)%nat) (TypeSeverityChart.aggregated data)
  ∧ Forall (λ e, (1 ≤ CountryRankChart.s_count e.2)%nat) (CountryRankChart.aggregated data).
Proof.
  assert (totalEvents (kpis data) = length data) as -> by (by destruct data).
  unfold TypeSeverityChart.aggregated, CountryRankChart.aggregated.
  rewrite !rollup_spec.
  split_and!.
  - rewrite <- list_fmap_compose, <- (groups_length disaster_type data). done.
  - rewrite <- list_fmap_compose, <- (groups_length country data). done.
  - apply Forall_fmap, Forall_forall. intros k Hk. simpl.
    rewrite Set_from_elem_of in Hk. apply key_elem_of_filter in Hk.
    destruct (filter _ data); [done|]. simpl. lia.
  - apply Forall_fmap, Forall_forall. intros k Hk. simpl.
    rewrite Set_from_elem_of in Hk. apply key_elem_of_filter in Hk.
    destruct (filter _ data); [done|]. simpl. lia.
Qed.

End kpi_cards.

(** ** The stacked chart: totals, tooltip and legend *)

Section time_trend_more.
Import TimeTrendChart.

Lemma Z_sum_of_nat (l : list nat) : Z_sum (Z.of_nat <$> l) = Z.of_nat (sum_list l).
Proof.
  induction l as [|n l IH]; [done|].
  rewrite fmap_cons, Z_sum_cons, IH. simpl. lia.
Qed.

(** The counts of the visible types in a year add up to the number of
    events of that year whose type is not hidden. *)
Lemma visible_counts_sum (data : list Event) (hiddenTypes : gset string) (y : Z) :
  Z_sum (count data y <$> visibleTypes data hiddenTypes)
  = Z.of_nat (length (filter (λ r, year r = y ∧ disaster_type r ∉ hiddenTypes) data)).
Proof.
  set (l := filter (λ r, year r = y ∧ disaster_type r ∉ hiddenTypes) data).
  assert (count data y <$> visibleTypes data hiddenTypes
          = Z.of_nat <$> ((λ k, length (filter (λ r, disaster_type r = k) l))
                            <$> visibleTypes data hiddenTypes)) as ->.
  { rewrite <- list_fmap_compose. apply list_fmap_ext.
    intros _ k [_ Hk]%list_elem_of_lookup_2%visibleTypes_elem_of.
    unfold count. simpl. do 2 f_equal. subst l.
    rewrite list_filter_filter. apply list_filter_iff. intros r. split.
    - intros [Hy Ht]. split; [done|]. split; [done|]. by rewrite Ht.
    - intros (Ht & Hy & _). done. }
  rewrite Z_sum_of_nat. f_equal.
  assert (∀ r, r ∈ l → disaster_type r ∈ visibleTypes data hiddenTypes) as Hcover.
  { intros r [[_ Hh] Hr]%list_elem_of_filter.
    apply visibleTypes_elem_of. split; [|done].
    apply types_elem_of. by exists r. }
  rewrite <- (Permutation_length
                (groups_partition disaster_type l (visibleTypes data hiddenTypes)
                   (NoDup_filter _ _ (types_NoDup data)) Hcover)).
  clear Hcover.
  induction (visibleTypes data hiddenTypes) as [|k ks IH]; [done|].
  by rewrite !fmap_cons, concat_cons, length_app, <- IH.
Qed.

(** X6: When no disaster type is called [__proto__], the stack is in
    every year as high as there are events of that year with a visible
    type; with nothing hidden (the state in which the chart starts) it is
    as high as there are events in that year. Every year of a record has
    its row in the chart. *)
Theorem stack_height_counts (data : list Event) (hiddenTypes : gset string) (j : nat) (y : Z) :
  (∀ r, r ∈ data → disaster_type r ≠ "__proto__"%string) →
  years data !! j = Some y →
  height (series data hiddenTypes) j
  = Some (Z.of_nat (length (filter (λ r, year r = y ∧ disaster_type r ∉ hiddenTypes) data)))
  ∧ height (series data ∅) j
    = Some (Z.of_nat (length (filter (λ r, year r = y) data)))
  ∧ ∀ r, r ∈ data → ∃ i, years data !! i = Some (year r).
Proof.
  intros Hno Hy.
  rewrite !series_cumulative, !(height_cumulative _ _ _ _ _ Hy)
    by (by apply no_proto_visible).
  rewrite !visible_counts_sum. split_and!; [done| |].
  - do 3 f_equal.
    apply list_filter_iff. intros r. split; [by intros [? _]|].
    intros Hr. split; [done|]. apply not_elem_of_empty.
  - intros r Hr. apply list_elem_of_lookup, years_elem_of. by exists r.
Qed.




(** X8: A disaster type called ["year"] takes the place of the year in every
    row of the table: the property [year] of the row then holds the number
    of events of that type. *)
Theorem year_property_overwritten (data : list Event) (y : Z) :
  "year"%string ∈ types data →
  stackRow data y !! "year"%string = Some (count data y "year").
Proof. intros Hin. by apply stackRow_lookup. Qed.

(** X9: Clicking a legend entry twice restores the set of hidden types, and
    with it the series; a hidden type that does not occur in the data
    changes nothing. *)
Theorem toggleType_twice (data : list Event) (hiddenTypes : gset string) (t : string) :
  toggleType (toggleType hiddenTypes t) t = hiddenTypes
  ∧ series data (toggleType (toggleType hiddenTypes t) t) = series data hiddenTypes
  ∧ (t ∉ types data → series data (toggleType hiddenTypes t) = series data hiddenTypes).
Proof.
  assert (toggleType (toggleType hiddenTypes t) t = hiddenTypes) as Htwice.
  { unfold toggleType. destruct (decide (t ∈ hiddenTypes)) as [Hin|Hin].
    - rewrite decide_False
        by (rewrite elem_of_difference, elem_of_singleton; by intros [_ ?]).
      apply set_eq. intros x.
      rewrite elem_of_union, elem_of_difference, elem_of_singleton. split.
      + by intros [[? _]| ->].
      + intros Hx. destruct (decide (x = t)) as [->|Hne]; [by right|by left].
    - rewrite decide_True by (rewrite elem_of_union, elem_of_singleton; by right).
      apply set_eq. intros x.
      rewrite elem_of_difference, elem_of_union, elem_of_singleton. split.
      + by intros [[?|?] ?].
      + intros Hx. split; [by left|]. by intros ->. }
  split_and!; [done|by rewrite Htwice|].
  intros Ht. unfold series, visibleTypes. f_equal.
  apply filter_ext_in. intros x Hx.
  assert (x ≠ t) as Hne by (by intros ->).
  unfold toggleType. destruct (decide (t ∈ hiddenTypes)).
  - rewrite elem_of_difference, elem_of_singleton. split.
    + intros Hx' ?. apply Hx'. done.
    + intros Hx' [? _]. done.
  - rewrite elem_of_union, elem_of_singleton. split.
    + intros Hx' ?. apply Hx'. by left.
    + intros Hx' [?|?]; done.
Qed.

End time_trend_more.

(** ** The ranking chart: window, domain and colours *)

Section country_rank_more.
Import CountryRankChart.

Lemma chartData_names (data : list Event) :
  name <$> chartData data = JS.Set_from (country <$> data).
Proof.
  unfold chartData, aggregated.
  rewrite rollup_spec, <- !list_fmap_compose. apply list_fmap_id.
Qed.

Lemma chartData_ne (data : list Event) : data ≠ [] → chartData data ≠ [].
Proof.
  intros Hne E. apply (f_equal (fmap name)) in E. rewrite chartData_names in E.
  destruct data as [|r data]; [done|].
  assert (country r ∈ JS.Set_from (country <$> r :: data)) as Hin.
  { apply Set_from_elem_of. rewrite fmap_cons. by left. }
  rewrite E in Hin. by apply not_elem_of_nil in Hin.
Qed.

Lemma ranked_length (data : list Event) (metric : string) :
  length (ranked (chartData data) metric)
  = Nat.min 15 (length (JS.Set_from (country <$> data))).
Proof.
  unfold ranked, JS.slice0, sorted, JS.sort.
  rewrite length_take, sort_with_length.
  by rewrite <- (length_fmap name), chartData_names.
Qed.

Lemma ranked_sorted (data : list Event) (metric : string) :
  StronglySorted (not_above (metricKey metric)) (ranked (chartData data) metric).
Proof.
  pose proof (sorted_descending (chartData data) metric (chartData_numbers data metric)) as Hs.
  rewrite <- (take_drop 15 (sorted (chartData data) metric)) in Hs.
  by apply StronglySorted_app_1_l in Hs.
Qed.

Lemma ranked_numbers (data : list Event) (metric : string) :
  Forall (λ b, is_Some (metricKey metric b)) (ranked (chartData data) metric).
Proof.
  apply Forall_forall. intros b Hb%subseteq_take.
  unfold sorted, JS.sort in Hb. rewrite sort_with_Permutation in Hb.
  pose proof (chartData_numbers data metric) as Hnum.
  by eapply Forall_forall in Hnum.
Qed.

(** The maximum of a descending list of numbers is its first value. *)
Lemma max_sorted_head (value : Bar → JS.num) (first : Bar) (rest : list Bar) (m : Qc) :
  StronglySorted (not_above value) (first :: rest) →
  value first = Some m →
  d3.max (first :: rest) value = Some m
  ∧ ∀ b, b ∈ first :: rest → ∃ v, value b = Some v ∧ (v ≤ m)%Qc.
Proof.
  intros [Hfirst Hrest]%StronglySorted_cons Hm.
  assert (∀ b, b ∈ first :: rest → ∃ v, value b = Some v ∧ (v ≤ m)%Qc) as Hle.
  { intros b [->|Hb]%elem_of_cons.
    - exists m. split; [done|apply Qcle_refl].
    - eapply Forall_forall in Hfirst as (x & v & Hx & Hv & Hvx); [|done].
      exists v. split; [done|]. congruence. }
  split; [|done].
  pose proof (max_spec (first :: rest) value) as Hmax.
  destruct (d3.max (first :: rest) value) as [m'|].
  - destruct Hmax as [(a & Ha & Hm') Hup]. f_equal.
    apply Qcle_antisym.
    + destruct (Hle a Ha) as (v & Hv & Hvm). congruence.
    + apply (Hup first m); [by left|done].
  - rewrite (Hmax first) in Hm by (by left). discriminate.
Qed.

(** X10: The ranking is a window on the groups: it holds
    [min 15 (number of countries)] bars, all of them groups of the data and
    no country twice, and a group left out never has a greater metric value
    than a group in the window. *)
Theorem ranked_window (data : list Event) (metric : string) :
  let bars := chartData data in
  let top := ranked bars metric in
  length top = Nat.min 15 (length (JS.Set_from (country <$> data)))
  ∧ NoDup (name <$> top)
  ∧ (∀ b, b ∈ top → b ∈ bars ∧ ∃ r, r ∈ data ∧ country r = name b)
  ∧ (∀ a b, a ∈ top → b ∈ drop 15 (sorted bars metric) → not_above (metricKey metric) a b)
  ∧ bars ≡ₚ top ++ drop 15 (sorted bars metric).
Proof.
  intros bars top. subst top. unfold ranked, JS.slice0.
  assert (sorted bars metric ≡ₚ bars) as Hperm by apply sort_with_Permutation.
  split_and!.
  - apply ranked_length.
  - rewrite fmap_take. eapply sublist_NoDup; [|apply sublist_take].
    rewrite Hperm. subst bars. rewrite chartData_names. apply Set_from_NoDup.
  - intros b Hb%subseteq_take.
    rewrite Hperm in Hb. split; [done|].
    assert (name b ∈ name <$> bars) as Hn by (by apply list_elem_of_fmap_2).
    subst bars. rewrite chartData_names, Set_from_elem_of, list_elem_of_fmap in Hn.
    destruct Hn as (r & Hr1 & Hr2). by exists r.
  - intros a b Ha Hb.
    pose proof (sorted_descending bars metric (chartData_numbers data metric)) as Hs.
    rewrite <- (take_drop 15 (sorted bars metric)) in Hs.
    by eapply StronglySorted_app_1_elem_of.
  - by rewrite take_drop.
Qed.

Lemma arithmetic_mean_nonneg (l : list Qc) :
  Forall (λ x, (0 ≤ x)%Qc) l → (0 ≤ arithmetic_mean l)%Qc.
Proof.
  intros Hl. unfold arithmetic_mean, Qcdiv.
  apply Qcmult_nonneg_nonneg; [by apply Qc_sum_nonneg|].
  destruct l as [|x l]; [done|].
  apply Qclt_le_weak, Qcinv_pos.
  rewrite <- Z2Qc_inj_0. apply (proj1 (Z2Qc_inj_lt 0 _)). cbn [length]. lia.
Qed.

Lemma xDomain_head (data : list Event) (metric : string) :
  data ≠ [] →
  let top := ranked (chartData data) metric in
  ∃ first m, top !! 0%nat = Some first
    ∧ metricKey metric first = Some m
    ∧ xDomainMax top metric = Some m
    ∧ ∀ b, b ∈ top → ∃ v, metricKey metric b = Some v ∧ (v ≤ m)%Qc.
Proof.
  intros Hne top.
  pose proof (ranked_sorted data metric) as Hs.
  pose proof (ranked_numbers data metric) as Hnum.
  pose proof (ranked_length data metric) as Hlen.
  fold top in Hs, Hnum, Hlen.
  destruct top as [|first rest].
  { exfalso. apply (chartData_ne data Hne).
    apply (fmap_nil_inv name). rewrite chartData_names.
    destruct (JS.Set_from (country <$> data)); [done|]. simpl in Hlen. lia. }
  apply Forall_cons in Hnum as [[m Hm] _].
  exists first, m. split; [done|]. split; [done|].
  by apply max_sorted_head.
Qed.


(** X12: Colouring by response time, on data without negative response times:
    when some mean is positive, the bar whose mean is [v] gets the
    parameter [1 - v / m] of the interval [[0, 1]], with [m] the greatest
    mean, so the first bar gets [0] and smaller means get greater
    parameters; when every mean is zero the quotient is [0 / 0] and every
    bar gets [NaN]. *)
Theorem reversed_color_parameter (data : list Event) :
  data ≠ [] →
  (∀ r, r ∈ data → (0 ≤ response_time_hours r)%Qc) →
  let top := ranked (chartData data) "response_time_hours" in
  ∃ m, xDomainMax top "response_time_hours" = Some m
    ∧ (0 ≤ m)%Qc
    ∧ (∀ b, b ∈ top →
         ∃ v, avgResponseTime b = Some v ∧ (0 ≤ v ≤ m)%Qc
           ∧ ((0 < m)%Qc →
                reversedColorParameter top "response_time_hours" (Some v)
                = Some (1 - v / m)%Qc
                ∧ (0 ≤ 1 - v / m ≤ 1)%Qc
                ∧ (v = m → (1 - v / m)%Qc = 0%Qc))
           ∧ (m = 0%Qc →
                reversedColorParameter top "response_time_hours" (Some v) = None)).
Proof.
  intros Hne Hpos top.
  destruct (xDomain_head data "response_time_hours" Hne) as (first & m & H0 & Hm & Hmax & Hle).
  fold top in H0, Hmax, Hle.
  assert (∀ b, b ∈ top → ∃ v, avgResponseTime b = Some v ∧ (0 ≤ v)%Qc) as Hnonneg.
  { intros b Hb%subseteq_take.
    unfold sorted, JS.sort in Hb. rewrite sort_with_Permutation in Hb.
    unfold chartData, aggregated in Hb.
    rewrite rollup_spec, <- list_fmap_compose in Hb.
    apply list_elem_of_fmap in Hb as (k & -> & Hk).
    rewrite Set_from_elem_of in Hk. apply key_elem_of_filter in Hk.
    simpl. rewrite mean_spec.
    destruct (filter _ data) as [|r g] eqn:Hg; [done|].
    eexists. split; [done|]. apply arithmetic_mean_nonneg.
    apply Forall_forall. intros x (r' & -> & Hr')%list_elem_of_fmap.
    apply Hpos. rewrite <- Hg in Hr'. by apply list_elem_of_filter in Hr' as [_ ?]. }
  exists m. split; [done|].
  assert (0 ≤ m)%Qc as Hm0.
  { destruct (Hnonneg first) as (v & Hv & Hv0); [by eapply list_elem_of_lookup_2|].
    change (metricKey "response_time_hours" first) with (avgResponseTime first) in Hm.
    congruence. }
  split; [done|].
  intros b Hb. destruct (Hnonneg b Hb) as (v & Hv & Hv0).
  destruct (Hle b Hb) as (v' & Hv' & Hvm).
  change (metricKey "response_time_hours" b) with (avgResponseTime b) in Hv'.
  assert (v' = v) as -> by congruence.
  exists v. split; [done|]. split; [done|].
  unfold reversedColorParameter. fold (xDomainMax top "response_time_hours").
  rewrite Hmax. split.
  - intros Hmpos.
    assert (m ≠ 0%Qc) as Hm_ne by (by apply not_symmetry, Qclt_not_eq).
    assert ((v / m) * m = v)%Qc as Hdiv by (by field).
    assert (0 ≤ v / m)%Qc as Hq0.
    { apply (Qcmult_le_mono_pos_r _ _ m Hmpos). rewrite Hdiv.
      by replace (0 * m)%Qc with 0%Qc by ring. }
    assert (v / m ≤ 1)%Qc as Hq1.
    { apply (Qcmult_le_mono_pos_r _ _ m Hmpos). rewrite Hdiv.
      by replace (1 * m)%Qc with m by ring. }
    split_and!.
    + unfold JS.div. by rewrite decide_False.
    + apply Qcle_minus_iff in Hq1. unfold Qcminus. done.
    + apply (Qcplus_le_mono_r _ _ (v / m)%Qc).
      replace (1 - v / m + v / m)%Qc with (1 + 0)%Qc by ring.
      by apply Qcplus_le_mono_l.
    + intros ->. field. done.
  - intros ->. unfold JS.div. by rewrite decide_True.
Qed.

End country_rank_more.

(** ** The severity chart: order of the bars and the value axis *)

Section type_severity_more.
Import TypeSeverityChart.

(** [arr.sort((a, b) => value(b) - value(a))] on numbers is descending. *)
Lemma sort_descending {B} (value : B → JS.num) (l : list B) :
  Forall (λ b, is_Some (value b)) l →
  StronglySorted (λ a b, ∃ x y, value a = Some x ∧ value b = Some y ∧ (y ≤ x)%Qc)
                 (JS.sort (λ a b, JS.sub (value b) (value a)) l).
Proof.
  intros Hnum. unfold JS.sort.
  set (before := λ x y : B, negb (JS.positive (JS.sub (value y) (value x)))).
  apply (StronglySorted_weaken (λ a b, before a b = true)).
  { intros a b Ha Hb. rewrite sort_with_elem_of in Ha, Hb.
    destruct (proj1 (Forall_forall _ _) Hnum a Ha) as [x Hx].
    destruct (proj1 (Forall_forall _ _) Hnum b Hb) as [y Hy].
    unfold before. rewrite Hx, Hy, compare_desc_spec. intros Hle. by exists x, y. }
  apply (sort_with_StronglySorted before (λ b, is_Some (value b))); [| |done].
  - intros a b [x Hx] [y Hy]. unfold before. rewrite Hx, Hy, !compare_desc_spec.
    destruct (Qclt_le_dec x y) as [Hlt|Hle]; [right; by apply Qclt_le_weak|by left].
  - intros a b c [x Hx] [y Hy] [z Hz]. unfold before.
    rewrite Hx, Hy, Hz, !compare_desc_spec. intros H1 H2. by eapply Qcle_trans.
Qed.

Lemma toBar_spec (data : list Event) (b : Bar) :
  b ∈ toBar <$> aggregated data →
  let g := filter (λ r, disaster_type r = type b) data in
  g ≠ []
  ∧ count b = length g
  ∧ avgCasualties b = Some (arithmetic_mean (casualties <$> g))
  ∧ avgEconomicLoss b
    = Some (arithmetic_mean (economic_loss_usd <$> g) / Qc_of_Z 1000000)%Qc.
Proof.
  unfold aggregated. rewrite rollup_spec, <- list_fmap_compose.
  intros (k & -> & Hk)%list_elem_of_fmap. simpl.
  rewrite Set_from_elem_of in Hk. apply key_elem_of_filter in Hk.
  destruct (reducer_spec _ Hk) as (_ & Hm & He).
  unfold reducer in Hm, He. simpl in Hm, He.
  split_and!; [done|done|done|by rewrite He].
Qed.

Lemma chartData_types (data : list Event) :
  type <$> chartData data ≡ₚ JS.Set_from (disaster_type <$> data).
Proof.
  unfold chartData, JS.sort. rewrite sort_with_Permutation.
  unfold aggregated. rewrite rollup_spec, <- !list_fmap_compose.
  by rewrite list_fmap_id.
Qed.

(** X13: The bars of the severity chart: one per disaster type of the subset,
    in descending order of mean casualties; each bar holds the number of
    events of its type, their mean casualties and their mean economic
    loss in millions. *)
Theorem severity_bars_descending (data : list Event) :
  let bars := chartData data in
  NoDup (type <$> bars)
  ∧ (∀ t, t ∈ type <$> bars ↔ ∃ r, r ∈ data ∧ disaster_type r = t)
  ∧ StronglySorted
      (λ a b, ∃ x y, avgCasualties a = Some x ∧ avgCasualties b = Some y ∧ (y ≤ x)%Qc)
      bars
  ∧ ∀ b, b ∈ bars →
      let g := filter (λ r, disaster_type r = type b) data in
      count b = length g
      ∧ avgCasualties b = Some (arithmetic_mean (casualties <$> g))
      ∧ avgEconomicLoss b
        = Some (arithmetic_mean (economic_loss_usd <$> g) / Qc_of_Z 1000000)%Qc.
Proof.
  intros bars. subst bars. split_and!.
  - rewrite chartData_types. apply Set_from_NoDup.
  - intros t. rewrite chartData_types, Set_from_elem_of, list_elem_of_fmap.
    split; intros (r & Hr1 & Hr2); by exists r.
  - apply sort_descending. apply Forall_forall. intros b Hb.
    destruct (toBar_spec data b Hb) as (_ & _ & -> & _). done.
  - intros b Hb. unfold chartData, JS.sort in Hb. rewrite sort_with_Permutation in Hb.
    by destruct (toBar_spec data b Hb) as (_ & ? & ? & ?).
Qed.


End type_severity_more.

(** ** The scatter chart: the sample and the scales *)

Section scatter_more.
Import ResponseScatterChart.

Lemma filter_index_sublist {A} (p : nat → bool) (index : nat) (l : list A) :
  JS.filter_index p index l `sublist_of` l.
Proof.
  revert index. induction l as [|x l IH]; intros index; [done|].
  cbn [JS.filter_index]. destruct (p index).
  - by apply sublist_skip.
  - by apply sublist_cons.
Qed.

Lemma sampledData_sublist {A} (data : list A) : sampledData data `sublist_of` data.
Proof.
  unfold sampledData. destruct (MAX_POINTS <? length data)%nat; [|done].
  unfold JS.slice0. etrans; [apply sublist_take|apply filter_index_sublist].
Qed.

Lemma sampledData_length {A} (data : list A) :
  length (sampledData data) = Nat.min 2000 (length data).
Proof.
  destruct (decide (length data ≤ MAX_POINTS)%nat) as [Hle|Hgt].
  - rewrite sampledData_small by done. unfold MAX_POINTS in Hle. lia.
  - destruct (sampledData_large data) as (_ & -> & _); unfold MAX_POINTS in *; lia.
Qed.

(** X15: The sample only thins the subset out: its points are points of the
    subset, in the order of the subset and none more often than there;
    and the number of points the subtitle announces, when it announces
    one, is the number of points of the sample. *)
Theorem sample_is_thinning {A} (data : list A) :
  sampledData data `sublist_of` data
  ∧ length (sampledData data) = Nat.min 2000 (length data)
  ∧ shownCount data
    = (if (2000 <? length data)%nat then Some (length (sampledData data)) else None)
  ∧ (shownCount data = None → sampledData data = data).
Proof.
  split_and!.
  - apply sampledData_sublist.
  - apply sampledData_length.
  - unfold shownCount. by rewrite sampledData_length.
  - unfold shownCount. destruct (2000 <? length data)%nat eqn:Hlt; [done|].
    intros _. apply sampledData_small. apply Nat.ltb_ge in Hlt. unfold MAX_POINTS. lia.
Qed.



End scatter_more.

(** ** The dashboard: the first view and the dropdown entries *)

Section dashboard_more.
Import Dashboard.

Lemma filter_id_iff {A} (P : A → Prop) `{!∀ x, Decision (P x)} (l : list A) :
  filter P l = l ↔ Forall P l.
Proof.
  split; [|apply filter_all].
  intros E. apply Forall_forall. intros x Hx.
  rewrite <- E in Hx. by apply list_elem_of_filter in Hx as [? _].
Qed.

(** X17: Before any control is used the year range is 2018 to 2024 whatever
    the data: the first view shows exactly the records of these years, so
    it shows the whole dataset only if no record lies outside them. *)
Theorem initial_view (data : list Event) :
  filteredData data initial = filter (λ r, (2018 ≤ year r ≤ 2024)%Z) data
  ∧ (filteredData data initial = data ↔ ∀ r, r ∈ data → (2018 ≤ year r ≤ 2024)%Z).
Proof.
  assert (filteredData data initial = filter (λ r, (2018 ≤ year r ≤ 2024)%Z) data) as E.
  { rewrite filteredData_filter. apply list_filter_iff. intros r.
    unfold selects. simpl. split; [by intros [? _]|]. intros Hy.
    split; [done|]. split; by left. }
  split; [done|]. rewrite E, filter_id_iff. apply Forall_forall.
Qed.

(** X18: Every entry of the two dropdowns other than ["All"] is a value of
    some record: chosen after a reset, it leaves at least one record in
    the filtered subset. *)
Theorem dropdown_entry_selects (data : list Event) (st : State) (entry : string) :
  entry ≠ "All"%string →
  (entry ∈ uniqueTypes data →
     filteredData data (update data (update data st Reset) (SetSelectedType entry)) ≠ [])
  ∧ (entry ∈ uniqueCountries data →
     filteredData data (update data (update data st Reset) (SetSelectedCountry entry)) ≠ []).
Proof.
  intros Hentry.
  assert (∀ st' r, r ∈ data → selects st' r → filteredData data st' ≠ []) as Hsel.
  { intros st' r Hr Hs E.
    assert (r ∈ filteredData data st') as Hin
      by (rewrite filteredData_filter; by apply list_elem_of_filter).
    rewrite E in Hin. by apply not_elem_of_nil in Hin. }
  split; intros Hin.
  - destruct data as [|r0 data]; [by apply not_elem_of_nil in Hin|].
    apply uniqueTypes_sorted in Hin as [->|(r & Hr & Ht)]; [done| |done].
    apply (Hsel _ r Hr). unfold selects. simpl.
    destruct (yearExtent_spec (r0 :: data)) as (_ & _ & Hall); [done|].
    split_and!; [apply Hall, Hr..| by right | by left].
  - destruct data as [|r0 data]; [by apply not_elem_of_nil in Hin|].
    unfold uniqueCountries, JS.sort_default in Hin.
    apply elem_of_cons in Hin as [->|Hin]; [done|].
    rewrite sort_with_Permutation, Set_from_elem_of, list_elem_of_fmap in Hin.
    destruct Hin as (r & Hc & Hr).
    apply (Hsel _ r Hr). unfold selects. simpl.
    destruct (yearExtent_spec (r0 :: data)) as (_ & _ & Hall); [done|].
    split_and!; [apply Hall, Hr..| by left | by right].
Qed.

End dashboard_more.

(** ** The normaliser: the year-month key *)

Section year_month.
Context `{Engine}.
Import useDisasterData.






End year_month.

(** ** The charts under the filter *)

Section charts_under_filter.
Import Dashboard.




End charts_under_filter.

(** ** Witnesses of the further properties *)

Section more_witnesses.
Import useDisasterData ReferenceHost Dashboard.

Lemma stack_height_counts_witness :
  (∀ r, r ∈ events → disaster_type r ≠ "__proto__"%string)
  ∧ TimeTrendChart.years events !! 0%nat = Some 2019%Z
  ∧ height (TimeTrendChart.series events {["Fire"%string]}) 0 = Some 3%Z
  ∧ height (TimeTrendChart.series events ∅) 0 = Some 5%Z.
Proof.
  assert (∀ r, r ∈ events → disaster_type r ≠ "__proto__"%string) as Hno.
  { intros r Hr. repeat (apply elem_of_cons in Hr as [->|Hr]); try discriminate.
    by apply not_elem_of_nil in Hr. }
  assert (TimeTrendChart.years events !! 0%nat = Some 2019%Z) as Hy by (by vm_compute).
  split_and!; [done|done|..].
  - destruct (stack_height_counts events {["Fire"%string]} 0 2019 Hno Hy) as (-> & _).
    by vm_compute.
  - destruct (stack_height_counts events {["Fire"%string]} 0 2019 Hno Hy) as (_ & -> & _).
    by vm_compute.
Defined.

Lemma series_bands_witness :
  (∀ r, r ∈ events → disaster_type r ≠ "__proto__"%string)
  ∧ (TimeTrendChart.series events {["Fire"%string]}).*1 = ["Flood"%string]
  ∧ TimeTrendChart.series events ∅ !! 1%nat
    = Some ("Flood"%string, [(Some 2%Z, Some 5%Z); (Some 1%Z, Some 1%Z)]).
Proof.
  assert (∀ r, r ∈ events → disaster_type r ≠ "__proto__"%string) as Hno.
  { intros r Hr. repeat (apply elem_of_cons in Hr as [->|Hr]); try discriminate.
    by apply not_elem_of_nil in Hr. }
  split_and!; [done|..].
  - destruct (series_bands events {["Fire"%string]} Hno) as (_ & _ & _ & _ & -> & _).
    by vm_compute.
  - destruct (series_bands events ∅ Hno) as (_ & _ & _ & _ & _ & Hband & _).
    rewrite (Hband 1%nat "Flood"%string) by (by vm_compute). by vm_compute.
Defined.


Lemma year_property_overwritten_witness :
  "year"%string ∈ TimeTrendChart.types [sample_event "year" "Chile" 2019 0 0]
  ∧ TimeTrendChart.stackRow [sample_event "year" "Chile" 2019 0 0] 2019 !! "year"%string
    = Some 1%Z.
Proof.
  assert ("year"%string ∈ TimeTrendChart.types [sample_event "year" "Chile" 2019 0 0]) as Hin
    by (apply list_elem_of_In; vm_compute; auto).
  split; [done|].
  apply (year_property_overwritten [sample_event "year" "Chile" 2019 0 0] 2019 Hin).
Defined.


Lemma reversed_color_parameter_witness :
  four_countries ≠ []
  ∧ (∀ r, r ∈ four_countries → (0 ≤ response_time_hours r)%Qc)
  ∧ ∃ m, CountryRankChart.xDomainMax
           (CountryRankChart.ranked (CountryRankChart.chartData four_countries)
              "response_time_hours")
           "response_time_hours" = Some m
       ∧ (0 ≤ m)%Qc.
Proof.
  assert (∀ r, r ∈ four_countries → (0 ≤ response_time_hours r)%Qc) as Hpos.
  { apply Forall_forall. repeat constructor; by vm_compute. }
  split; [discriminate|]. split; [done|].
  destruct (reversed_color_parameter four_countries ltac:(discriminate) Hpos)
    as (m & Hm & Hm0 & _).
  by exists m.
Defined.



Lemma dropdown_entry_selects_witness :
  "Fire"%string ≠ "All"%string
  ∧ "Fire"%string ∈ uniqueTypes events
  ∧ filteredData events
      (update events (update events initial Reset) (SetSelectedType "Fire")) ≠ [].
Proof.
  assert ("Fire"%string ∈ uniqueTypes events) as Hin
    by (apply list_elem_of_In; vm_compute; auto).
  split; [discriminate|]. split; [done|].
  by apply (dropdown_entry_selects events initial "Fire" ltac:(discriminate)).
Defined.


End more_witnesses.
